(** * ansibledriver.service.process: admission control and dispatch

    A shallow embedding of [src/ansibledriver/service/process.py]:
    the scheduler facade [AnsibleProcessorService], the dispatch loop
    [QueueThread], the two worker isolates [AnsibleWorkerThread] and
    [AnsibleWorkerProcess], the response aggregator [ResponsesThread] and
    the shared [Counter].

    Python objects with mutable state become fields of one [World] record
    that every method threads through; a method is a function
    [World -> outcome A * World].  Every call on a collaborator (request
    queue, messaging service, result pipe, Ansible client, worker start) is
    appended to [trace], so that "is called", "is called once" and "is
    called before" are statements about lists.

    One method of the facade is left out.  [ansible_process_worker] is
    the body of the processes of the static pool: a service with
    [use_pool] cannot be constructed (see [AnsibleProcessorService__init__]),
    and what the body does with the shutdown sentinel depends on the
    sentinel's type, which [ansibledriver.service.queue] defines. *)

From Stdlib Require Import ZArith Lia.
From stdpp Require Import base gmap strings list.

Local Open Scope Z_scope.

(** ** Data model *)

(** The values a request dictionary holds in the callers and the tests:
    strings (request ids, lifecycle names), a [DirectoryTree] (given by
    its root path) and the flat property dictionaries. *)
Inductive value :=
| VStr (s : string)
| VDirectoryTree (root : string)
| VDict (d : list (string * string)).

#[global] Instance value_eq_dec : EqDecision value.
Proof. solve_decision. Defined.

(** A request is a Python [dict] with string keys. *)
Abbreviation Request := (gmap string value).

(** [ignition.model.lifecycle]: the three status constants. *)
Inductive Status := STATUS_IN_PROGRESS | STATUS_COMPLETE | STATUS_FAILED.

#[global] Instance Status_eq_dec : EqDecision Status.
Proof. solve_decision. Defined.

(** [ignition.model.failure]: the failure codes this module imports. *)
Inductive FailureCode :=
| FAILURE_CODE_INFRASTRUCTURE_ERROR
| FAILURE_CODE_INTERNAL_ERROR
| FAILURE_CODE_RESOURCE_NOT_FOUND
| FAILURE_CODE_INSUFFICIENT_CAPACITY.

#[global] Instance FailureCode_eq_dec : EqDecision FailureCode.
Proof. solve_decision. Defined.

Record FailureDetails := mkFailureDetails {
  failure_code : FailureCode;
  description : string
}.

#[global] Instance FailureDetails_eq_dec : EqDecision FailureDetails.
Proof. solve_decision. Defined.

(** [LifecycleExecution(request_id, status, failure_details, outputs)]:
    the Result of the specification. *)
Record LifecycleExecution := mkLifecycleExecution {
  request_id : value;
  status : Status;
  failure_details : option FailureDetails;
  outputs : gmap string value
}.

#[global] Instance LifecycleExecution_eq_dec : EqDecision LifecycleExecution.
Proof. solve_decision. Defined.

(** What the bounded queue delivers: a request, or the shutdown sentinel
    [SHUTDOWN_MESSAGE] imported from [ansibledriver.service.queue]. *)
Inductive item :=
| SHUTDOWN_MESSAGE
| Req (r : Request).

#[global] Instance item_eq_dec : EqDecision item.
Proof. solve_decision. Defined.

(** [request == SHUTDOWN_MESSAGE] *)
Definition is_shutdown_message (request : item) : bool :=
  bool_decide (request = SHUTDOWN_MESSAGE).

(** ** Exceptions and outcomes *)

(** The classes of [Exception] that occur in this module or in the
    collaborators it calls. *)
Inductive exn_class :=
| ValueError | KeyError | AttributeError | OSError | EOFError | RuntimeError.

#[global] Instance exn_class_eq_dec : EqDecision exn_class.
Proof. solve_decision. Defined.

(** An instance of [Exception]: its class and [str(e)]. *)
Record exn := mkExn {
  exn_cls : exn_class;
  exn_str : string
}.

#[global] Instance exn_eq_dec : EqDecision exn.
Proof. solve_decision. Defined.

(** How a call ends: it returns, it raises an [Exception], or the
    interpreter exits ([exit(0)] in [sigint_handler]; [SystemExit] is not
    an [Exception], so no [except Exception] clause of this module
    catches it). *)
Inductive outcome (A : Type) :=
| Ok (a : A)
| Raise (e : exn)
| Exit (code : Z).

Arguments Ok {A} a.
Arguments Raise {A} e.
Arguments Exit {A} code.

(** ** Configuration *)

(** [ProcessProperties]; Python integers are unbounded. *)
Record ProcessProperties := mkProcessProperties {
  process_pool_size : Z;
  max_concurrent_ansible_processes : Z;
  max_queue_size : Z;
  use_pool : bool;
  is_threaded : bool
}.

(** [ProcessProperties.__init__]: the defaults. *)
Definition ProcessProperties__init__ : ProcessProperties :=
  {| process_pool_size := 10;
     max_concurrent_ansible_processes := 10;
     max_queue_size := 100;
     use_pool := false;
     is_threaded := false |}.

(** ** Collaborators *)

(** Modelled from the spec: the interface of the request queue
    ([ansibledriver.service.queue.RequestQueue], which is not among the
    sources at hand).  The embedding is parametric in the queue: any state
    type [Q] with these six operations.  Their signatures follow section 6
    of the specification, which gives none of them a failure mode:
    [put(request)], [next()] returning a request or nothing when the
    blocking read times out, [size()] the current depth, [task_done()],
    [shutdown()] and [queue_status()]. *)
Class RequestQueue (Q : Type) := {
  queue_put : item -> Q -> Q;
  queue_next : Q -> option item * Q;
  queue_size : Q -> Z;
  queue_task_done : Q -> Q;
  queue_shutdown : Q -> Q;
  queue_queue_status : Q -> Z * Z
}.

(** The write end and the read end of [Pipe(False)], seen as one buffer:
    [send] appends, [recv] removes the oldest object.  Workers send
    results; the pool worker may also send [None]. *)
Record Pipe := mkPipe {
  pipe_closed : bool;
  pipe_buffer : list (option LifecycleExecution)
}.

Inductive WorkerKind := ThreadWorker | ProcessWorker.

#[global] Instance WorkerKind_eq_dec : EqDecision WorkerKind.
Proof. solve_decision. Defined.

(** A worker isolate that was constructed: its variant and
    [self.request]. *)
Record Worker := mkWorker {
  worker_kind : WorkerKind;
  worker_request : option Request
}.

#[global] Instance Worker_eq_dec : EqDecision Worker.
Proof. solve_decision. Defined.

(** Signal dispositions [signal.signal] is given or returns. *)
Inductive SigHandler := SIG_DFL | SIG_IGN | SigintHandler.

#[global] Instance SigHandler_eq_dec : EqDecision SigHandler.
Proof. solve_decision. Defined.

Inductive CounterOp := OpIncrement | OpDecrement | OpValue.

(** The calls the constructor makes before it starts a thread, in the
    order it makes them: [get_property_group], [Counter()], [Pipe(False)]
    and the two [signal.signal]. *)
Inductive InitCall :=
| InitGetPropertyGroup
| InitCounter
| InitPipe
| InitSignalSIGCHLD
| InitSignalSIGINT.

Definition init_calls : list InitCall :=
  [InitGetPropertyGroup; InitCounter; InitPipe; InitSignalSIGCHLD;
   InitSignalSIGINT].

(** What the code cannot control.  [run_lifecycle_playbook] is the
    Ansible client: for a request it returns a result, returns [None], or
    raises.  [lock_fault] says whether acquiring the counter's lock fails
    in a method of [Counter]; [start_fault] whether starting a thread or
    a process fails; [init_fault] whether a call of the constructor
    fails, as [signal.signal] does with [ValueError] off the main thread
    of the interpreter. *)
Record Env := mkEnv {
  run_lifecycle_playbook : Request -> outcome (option LifecycleExecution);
  lock_fault : CounterOp -> option exn;
  start_fault : option exn;
  init_fault : InitCall -> option exn
}.

(** The exception of the first call in a list that fails. *)
Definition first_fault (fault : InitCall -> option exn)
    (calls : list InitCall) : option exn :=
  head (omap fault calls).

(** Calls on collaborators, in the order they are made. *)
Inductive event :=
| EvQueueSize
| EvQueuePut (request : item)
| EvQueueNext
| EvQueueTaskDone
| EvQueueShutdown
| EvQueueStatus
| EvSendLifecycleExecution (le : LifecycleExecution)
| EvPipeSend (x : option LifecycleExecution)
| EvPipeClose
| EvPipeRecv
| EvCounterIncrement
| EvCounterDecrement
| EvCounterValue
| EvWorkerStart (w : Worker)
| EvRunLifecyclePlaybook (request : Request)
| EvSignalSIGCHLD (h : SigHandler).

#[global] Instance event_eq_dec : EqDecision event.
Proof. solve_decision. Defined.

Inductive LogLevel := DEBUG | INFO | WARN | ERROR | TRACEBACK.

(** The state of the service and of everything it shares with its threads
    and processes. *)
Record World (Q : Type) := mkWorld {
  process_properties : ProcessProperties;
  env : Env;
  active : bool;                       (* AnsibleProcessorService.active *)
  counter : Z;                         (* Counter.val.value *)
  request_queue : Q;
  send_pipe : Pipe;
  sigchld_handler : SigHandler;        (* disposition saved by __init__ *)
  workers : list Worker;               (* started, not yet run *)
  queue_thread_alive : bool;           (* QueueThread.run has not returned *)
  responses_thread_alive : bool;       (* ResponsesThread.run has not returned *)
  trace : list event;
  log : list (LogLevel * string);
  queue_thread_in_turn : bool;         (* QueueThread is past its loop test *)
  responses_thread_in_turn : bool      (* ResponsesThread is past its loop test *)
}.

Arguments mkWorld {Q}.
Arguments process_properties {Q} _.
Arguments env {Q} _.
Arguments active {Q} _.
Arguments counter {Q} _.
Arguments request_queue {Q} _.
Arguments send_pipe {Q} _.
Arguments sigchld_handler {Q} _.
Arguments workers {Q} _.
Arguments queue_thread_alive {Q} _.
Arguments responses_thread_alive {Q} _.
Arguments trace {Q} _.
Arguments log {Q} _.
Arguments queue_thread_in_turn {Q} _.
Arguments responses_thread_in_turn {Q} _.

(** ** The monad of methods *)

Section Service.

Context {Q : Type} `{RequestQueue Q}.

(** A method body: from the state before to how the call ends and the
    state after. *)
Definition M (A : Type) : Type := World Q -> outcome A * World Q.

#[global] Instance M_ret : MRet M := fun A a w => (Ok a, w).

#[global] Instance M_bind : MBind M := fun A B f m w =>
  match m w with
  | (Ok a, w') => f a w'
  | (Raise e, w') => (Raise e, w')
  | (Exit c, w') => (Exit c, w')
  end.

(** [raise e] *)
Definition raise {A} (e : exn) : M A := fun w => (Raise e, w).

(** [exit(code)] *)
Definition exit {A} (code : Z) : M A := fun w => (Exit code, w).

(** Reading an attribute. *)
Definition gets {A} (f : World Q -> A) : M A := fun w => (Ok (f w), w).

(** Changing the state. *)
Definition modify (f : World Q -> World Q) : M unit := fun w => (Ok tt, f w).

(** [try: body  except Exception as e: handler(e)] *)
Definition try_except {A} (body : M A) (handler : exn -> M A) : M A := fun w =>
  match body w with
  | (Raise e, w') => handler e w'
  | r => r
  end.

(** [try: body  except EOFError as error: handler]: other exceptions
    pass through. *)
Definition try_except_EOFError {A} (body : M A) (handler : M A) : M A := fun w =>
  match body w with
  | (Raise e, w') =>
      if bool_decide (exn_cls e = EOFError) then handler w' else (Raise e, w')
  | r => r
  end.

(** [try: body  finally: final].  The final block runs however the body
    ends; when it returns, the body's outcome stands (also a [break],
    carried here by the body's value), when it raises, its own exception
    replaces it. *)
Definition try_finally {A} (body : M A) (final : M unit) : M A := fun w =>
  match body w with
  | (o, w') =>
      match final w' with
      | (Ok _, w'') => (o, w'')
      | (Raise e, w'') => (Raise e, w'')
      | (Exit c, w'') => (Exit c, w'')
      end
  end.

(** *** Field updates *)

Definition set_active (b : bool) (w : World Q) : World Q :=
  mkWorld (process_properties w) (env w) b (counter w) (request_queue w)
    (send_pipe w) (sigchld_handler w) (workers w) (queue_thread_alive w)
    (responses_thread_alive w) (trace w) (log w)
    (queue_thread_in_turn w) (responses_thread_in_turn w).

Definition set_counter (v : Z) (w : World Q) : World Q :=
  mkWorld (process_properties w) (env w) (active w) v (request_queue w)
    (send_pipe w) (sigchld_handler w) (workers w) (queue_thread_alive w)
    (responses_thread_alive w) (trace w) (log w)
    (queue_thread_in_turn w) (responses_thread_in_turn w).

Definition set_request_queue (q : Q) (w : World Q) : World Q :=
  mkWorld (process_properties w) (env w) (active w) (counter w) q
    (send_pipe w) (sigchld_handler w) (workers w) (queue_thread_alive w)
    (responses_thread_alive w) (trace w) (log w)
    (queue_thread_in_turn w) (responses_thread_in_turn w).

Definition set_send_pipe (p : Pipe) (w : World Q) : World Q :=
  mkWorld (process_properties w) (env w) (active w) (counter w) (request_queue w)
    p (sigchld_handler w) (workers w) (queue_thread_alive w)
    (responses_thread_alive w) (trace w) (log w)
    (queue_thread_in_turn w) (responses_thread_in_turn w).

Definition set_workers (ws : list Worker) (w : World Q) : World Q :=
  mkWorld (process_properties w) (env w) (active w) (counter w) (request_queue w)
    (send_pipe w) (sigchld_handler w) ws (queue_thread_alive w)
    (responses_thread_alive w) (trace w) (log w)
    (queue_thread_in_turn w) (responses_thread_in_turn w).

Definition set_queue_thread_alive (b : bool) (w : World Q) : World Q :=
  mkWorld (process_properties w) (env w) (active w) (counter w) (request_queue w)
    (send_pipe w) (sigchld_handler w) (workers w) b
    (responses_thread_alive w) (trace w) (log w)
    (queue_thread_in_turn w) (responses_thread_in_turn w).

Definition set_responses_thread_alive (b : bool) (w : World Q) : World Q :=
  mkWorld (process_properties w) (env w) (active w) (counter w) (request_queue w)
    (send_pipe w) (sigchld_handler w) (workers w) (queue_thread_alive w)
    b (trace w) (log w) (queue_thread_in_turn w) (responses_thread_in_turn w).

Definition set_env (e : Env) (w : World Q) : World Q :=
  mkWorld (process_properties w) e (active w) (counter w) (request_queue w)
    (send_pipe w) (sigchld_handler w) (workers w) (queue_thread_alive w)
    (responses_thread_alive w) (trace w) (log w)
    (queue_thread_in_turn w) (responses_thread_in_turn w).

Definition set_queue_thread_in_turn (b : bool) (w : World Q) : World Q :=
  mkWorld (process_properties w) (env w) (active w) (counter w) (request_queue w)
    (send_pipe w) (sigchld_handler w) (workers w) (queue_thread_alive w)
    (responses_thread_alive w) (trace w) (log w) b (responses_thread_in_turn w).

Definition set_responses_thread_in_turn (b : bool) (w : World Q) : World Q :=
  mkWorld (process_properties w) (env w) (active w) (counter w) (request_queue w)
    (send_pipe w) (sigchld_handler w) (workers w) (queue_thread_alive w)
    (responses_thread_alive w) (trace w) (log w) (queue_thread_in_turn w) b.

(** Recording a call on a collaborator. *)
Definition emit (ev : event) : M unit := modify (fun w =>
  mkWorld (process_properties w) (env w) (active w) (counter w) (request_queue w)
    (send_pipe w) (sigchld_handler w) (workers w) (queue_thread_alive w)
    (responses_thread_alive w) (trace w ++ [ev]) (log w)
    (queue_thread_in_turn w) (responses_thread_in_turn w)).

(** [logger.<level>(template.format(...))]: the record keeps the level and
    the template; the arguments are evaluated by the caller before. *)
Definition logger (lvl : LogLevel) (template : string) : M unit := modify (fun w =>
  mkWorld (process_properties w) (env w) (active w) (counter w) (request_queue w)
    (send_pipe w) (sigchld_handler w) (workers w) (queue_thread_alive w)
    (responses_thread_alive w) (trace w) (log w ++ [(lvl, template)])
    (queue_thread_in_turn w) (responses_thread_in_turn w)).

(** [traceback.print_exc(...)] *)
Definition traceback_print_exc : M unit := logger TRACEBACK "".

(** *** Requests *)

(** [request[key]]: [KeyError] when the key is absent; [str] of a
    [KeyError] is the [repr] of the key. *)
Definition getitem (request : Request) (key : string) : M value :=
  match request !! key with
  | Some v => mret v
  | None => raise (mkExn KeyError ("'" +:+ key +:+ "'"))
  end.

(** [key in request] *)
Definition contains (request : Request) (key : string) : bool :=
  bool_decide (is_Some (request !! key)).

(** *** The request queue *)

Definition request_queue_size : M Z :=
  emit EvQueueSize;; gets (fun w => queue_size (request_queue w)).

Definition request_queue_put (request : item) : M unit :=
  emit (EvQueuePut request);;
  modify (fun w => set_request_queue (queue_put request (request_queue w)) w).

Definition request_queue_next : M (option item) :=
  emit EvQueueNext;;
  r ← gets (fun w => queue_next (request_queue w));
  modify (set_request_queue (snd r));;
  mret (fst r).

Definition request_queue_task_done : M unit :=
  emit EvQueueTaskDone;;
  modify (fun w => set_request_queue (queue_task_done (request_queue w)) w).

Definition request_queue_shutdown : M unit :=
  emit EvQueueShutdown;;
  modify (fun w => set_request_queue (queue_shutdown (request_queue w)) w).

Definition request_queue_queue_status : M (Z * Z) :=
  emit EvQueueStatus;; gets (fun w => queue_queue_status (request_queue w)).

(** *** The messaging service *)

(** [messaging_service.send_lifecycle_execution(le)]: a publish; what was
    published is read off the trace. *)
Definition send_lifecycle_execution (le : LifecycleExecution) : M unit :=
  emit (EvSendLifecycleExecution le).

(** *** The result pipe *)

(** [send_pipe.send(x)]: a closed connection raises [OSError]. *)
Definition send_pipe_send (x : option LifecycleExecution) : M unit :=
  emit (EvPipeSend x);;
  p ← gets send_pipe;
  if pipe_closed p then raise (mkExn OSError "handle is closed")
  else modify (set_send_pipe (mkPipe false (pipe_buffer p ++ [x]))).

(** [send_pipe.close()]: closing a closed connection does nothing. *)
Definition send_pipe_close : M unit :=
  emit EvPipeClose;;
  p ← gets send_pipe;
  modify (set_send_pipe (mkPipe true (pipe_buffer p))).

(** [recv_pipe.recv()] when it returns: the oldest object, or [EOFError]
    when nothing is buffered and the write end is closed.  (With nothing
    buffered and the write end open the call blocks; see [recv_ready].) *)
Definition recv_pipe_recv : M (option LifecycleExecution) :=
  emit EvPipeRecv;;
  p ← gets send_pipe;
  match pipe_buffer p with
  | x :: rest => modify (set_send_pipe (mkPipe (pipe_closed p) rest));; mret x
  | [] => raise (mkExn EOFError "")
  end.

Definition recv_ready (w : World Q) : bool :=
  match pipe_buffer (send_pipe w) with
  | _ :: _ => true
  | [] => pipe_closed (send_pipe w)
  end.

(** *** The Ansible client *)

(** [ansible_client.run_lifecycle_playbook(request)] *)
Definition ansible_client_run_lifecycle_playbook (request : Request)
  : M (option LifecycleExecution) :=
  emit (EvRunLifecyclePlaybook request);;
  ((fun w => (run_lifecycle_playbook (env w) request, w)) : M _).

(** ** [Counter] *)

(** [RawValue('i', value)] is a C [int]: what is stored is reduced to 32
    bits, two's complement. *)
Definition c_int (v : Z) : Z := (v + 2 ^ 31) `mod` 2 ^ 32 - 2 ^ 31.

Definition INT_MAX : Z := 2147483647.

(** [Counter.__init__(value=0)] *)
Definition Counter__init__ (value : Z) : Z := c_int value.

(** [with self.lock: body] *)
Definition with_lock {A} (op : CounterOp) (body : M A) : M A := fun w =>
  match lock_fault (env w) op with
  | Some e => (Raise e, w)
  | None => body w
  end.

(** [Counter.increment]: [self.val.value += 1] *)
Definition Counter_increment : M unit :=
  emit EvCounterIncrement;;
  with_lock OpIncrement (modify (fun w => set_counter (c_int (counter w + 1)) w)).

(** [Counter.decrement]: [self.val.value -= 1] *)
Definition Counter_decrement : M unit :=
  emit EvCounterDecrement;;
  with_lock OpDecrement (modify (fun w => set_counter (c_int (counter w - 1)) w)).

(** [Counter.value] *)
Definition Counter_value : M Z :=
  emit EvCounterValue;;
  with_lock OpValue (gets counter).

(** ** Worker isolates *)

(** [worker.start()]: the worker is handed to the operating system, which
    may refuse. *)
Definition Worker_start (worker : Worker) : M unit :=
  emit (EvWorkerStart worker);;
  f ← gets (fun w => start_fault (env w));
  match f with
  | Some e => raise e
  | None => modify (fun w => set_workers (workers w ++ [worker]) w)
  end.

(** The result a worker synthesizes in its handler. *)
Definition internal_error_result (rid : value) (e : exn) : LifecycleExecution :=
  mkLifecycleExecution rid STATUS_FAILED
    (Some (mkFailureDetails FAILURE_CODE_INTERNAL_ERROR
             ("Unexpected exception: " +:+ exn_str e)))
    ∅.

(** [AnsibleWorkerThread.run] *)
Definition AnsibleWorkerThread_run (self : Worker) : M unit :=
  try_except
    (match worker_request self with
     | Some request =>
         resp ← ansible_client_run_lifecycle_playbook request;
         match resp with
         | Some r =>
             logger INFO "Ansible worker finished for request {0} response {1}";;
             send_pipe_send (Some r)
         | None =>
             logger WARN "Empty response from Ansible worker for request {0}"
         end
     | None => mret tt
     end)
    (fun e =>
       logger ERROR "Unexpected exception {0}";;
       traceback_print_exc;;
       match worker_request self with
       | Some request =>
           rid ← getitem request "request_id";
           send_pipe_send (Some (internal_error_result rid e))
       | None => mret tt
       end).

(** [AnsibleWorkerProcess.run]: the same body after the child process has
    put back the saved [SIGCHLD] disposition. *)
Definition AnsibleWorkerProcess_run (self : Worker) : M unit :=
  h ← gets sigchld_handler;
  emit (EvSignalSIGCHLD h);;
  try_except
    (match worker_request self with
     | Some request =>
         resp ← ansible_client_run_lifecycle_playbook request;
         match resp with
         | Some r =>
             logger INFO "Ansible worker finished for request {0} response {1}";;
             send_pipe_send (Some r)
         | None =>
             logger WARN "Empty response from Ansible worker for request {0}"
         end
     | None => mret tt
     end)
    (fun e =>
       logger ERROR "Unexpected exception {0}";;
       traceback_print_exc;;
       match worker_request self with
       | Some request =>
           rid ← getitem request "request_id";
           send_pipe_send (Some (internal_error_result rid e))
       | None => mret tt
       end).

(** The [run] method of a worker of either variant. *)
Definition Worker_run (self : Worker) : M unit :=
  match worker_kind self with
  | ThreadWorker => AnsibleWorkerThread_run self
  | ProcessWorker => AnsibleWorkerProcess_run self
  end.

(** ** [AnsibleProcessorService] *)

(** A rejection synthesized by the facade. *)
Definition insufficient_capacity_result (rid : value) (text : string)
  : LifecycleExecution :=
  mkLifecycleExecution rid STATUS_FAILED
    (Some (mkFailureDetails FAILURE_CODE_INSUFFICIENT_CAPACITY text)) ∅.

(** [AnsibleProcessorService.run_lifecycle] *)
Definition run_lifecycle (request : Request) : M unit :=
  if negb (contains request "request_id") then
    raise (mkExn ValueError "Request must have a request_id")
  else if negb (contains request "lifecycle_name") then
    raise (mkExn ValueError "Request must have a lifecycle_name")
  else if negb (contains request "lifecycle_path") then
    raise (mkExn ValueError "Request must have a lifecycle_path")
  else
    (* the arguments of the debug line are evaluated first *)
    _ ← request_queue_size;
    logger DEBUG "request_queue.size {0} max_queue_size {1}";;
    a ← gets active;
    if (a : bool) then
      size ← request_queue_size;
      limit ← gets (fun w => max_queue_size (process_properties w));
      if limit <=? size then
        rid ← getitem request "request_id";
        send_lifecycle_execution
          (insufficient_capacity_result rid
             "Request cannot be handled, driver is overloaded")
      else
        request_queue_put (Req request)
    else
      rid ← getitem request "request_id";
      send_lifecycle_execution
        (insufficient_capacity_result rid "Driver is inactive").

(** [AnsibleProcessorService.queue_status] *)
Definition queue_status : M (Z * Z) := request_queue_queue_status.

(** [AnsibleProcessorService.shutdown] *)
Definition shutdown : M unit :=
  logger INFO "shutdown";;
  modify (set_active false);;
  request_queue_shutdown;;
  send_pipe_close.

(** [AnsibleProcessorService.sigint_handler] *)
Definition sigint_handler : M unit :=
  logger DEBUG "sigint_handler";;
  shutdown;;
  exit 0.

(** [AnsibleProcessorService.__init__].  [messaging_service] says whether
    the keyword argument was given, [previous] is the [SIGCHLD] disposition
    in force before.  With [use_pool] no [queue_thread] attribute is ever
    assigned, and the test [self.queue_thread is not None] that ends the
    constructor raises.

    The statements are taken in their order: the test of the keyword,
    the calls of [init_calls], of which the first that fails ends the
    constructor, the starts, and the last test.  The embedding says when
    the constructor fails for one of these reasons and what state it
    leaves when it returns; it does not say that it returns in every
    other case. *)
Definition AnsibleProcessorService__init__
    (configuration : ProcessProperties) (queue : Q) (environment : Env)
    (messaging_service : bool) (previous : SigHandler) : outcome (World Q) :=
  if negb messaging_service then
    Raise (mkExn ValueError "messaging_service argument not provided")
  else
    match first_fault (init_fault environment) init_calls with
    | Some e => Raise e
    | None =>
    match start_fault environment with
    | Some e =>
        (* the first [start()] reached: a pool process when there is one,
           else the responses thread *)
        Raise e
    | None =>
        if use_pool configuration then
          Raise (mkExn AttributeError
            "'AnsibleProcessorService' object has no attribute 'queue_thread'")
        else
          Ok {| process_properties := configuration;
                env := environment;
                active := true;
                counter := Counter__init__ 0;
                request_queue := queue;
                send_pipe := mkPipe false [];
                sigchld_handler := previous;
                workers := [];
                queue_thread_alive := true;
                responses_thread_alive := true;
                trace := [EvSignalSIGCHLD SIG_IGN];
                log := [];
                queue_thread_in_turn := false;
                responses_thread_in_turn := false |}
    end
    end.

(** ** [QueueThread] *)

Inductive LoopCtl := Continue | Break.

(** The [try] block of one turn of the loop in [QueueThread.run]; a
    [break] is the value [Break]. *)
Definition QueueThread_run_try : M LoopCtl :=
  request ← request_queue_next;
  match request with
  | None => mret Continue
  | Some SHUTDOWN_MESSAGE =>
      request_queue_task_done;;
      mret Break
  | Some (Req r) =>
      value ← Counter_value;
      limit ← gets (fun w => max_concurrent_ansible_processes (process_properties w));
      if value <? limit then
        try_finally
          (logger INFO "Got request from queue: {0}";;
           if is_shutdown_message (Req r) then
             request_queue_task_done;;
             mret Break
           else
             Counter_increment;;
             threaded ← gets (fun w => is_threaded (process_properties w));
             if (threaded : bool) then
               Worker_start (mkWorker ThreadWorker (Some r));;
               logger INFO "Request processing started for request {0} with thread {1}";;
               mret Continue
             else
               Worker_start (mkWorker ProcessWorker (Some r));;
               logger INFO "Request processing started for request {0} with pid {1}";;
               mret Continue)
          request_queue_task_done
      else
        request_queue_task_done;;
        logger DEBUG "Max processes reached, re-queuing request {0}";;
        request_queue_put (Req r);;
        mret Continue
  end.

(** One turn of the loop: the [try] block under its
    [except Exception] handler. *)
Definition QueueThread_run_iteration : M LoopCtl :=
  try_except QueueThread_run_try
    (fun e =>
       traceback_print_exc;;
       logger ERROR "Unexpected exception {0}";;
       mret Continue).

(** ** [ResponsesThread] *)

(** One turn of the loop in [ResponsesThread.run]. *)
Definition ResponsesThread_run_iteration : M unit :=
  try_except_EOFError
    (result ← recv_pipe_recv;
     match result with
     | Some le =>
         logger INFO "responses thread received {0}";;
         send_lifecycle_execution le
     | None => mret tt
     end)
    (mret tt).

(** ** The running system *)

(** What can happen next.  A call of the facade and the run of one
    started worker are taken as indivisible; the environment may change
    between any two operations.

    A turn of either loop is the loop test followed by the body, and the
    body begins with the blocking call ([next()], [recv()]) in which the
    thread spends its time, so anything can happen between the two.
    [DispatchLoopEnters] is the test alone, [DispatchLoopCompletes] the
    body of the turn that was entered, and [DispatchLoopTurn] the two with
    nothing in between; the same for the aggregator.

    A worker thread sends on the connection object of the service.  A
    worker process sends on the copy of it that the fork made, which
    stays as it was when the parent closes its own: [WorkerRuns] is the
    run of a worker whose connection is as the service's is now,
    [ForkedWorkerRuns] the run of a worker process whose copy is open.
    The state does not record when a worker was forked, so either may
    be taken for a worker process. *)
Inductive operation :=
| CallRunLifecycle (request : Request)
| CallQueueStatus
| CallShutdown
| SignalSIGINT
| DispatchLoopTurn
| AggregatorTurn
| WorkerRuns (i : nat)
| EnvironmentChanges (e : Env)
| DispatchLoopEnters
| DispatchLoopCompletes
| AggregatorEnters
| AggregatorCompletes
| ForkedWorkerRuns (i : nat).

(** [QueueThread.run], one turn of [while self.ansible_processor.active]
    with nothing in between: the loop test, then the body; the thread ends
    when the test fails or the body breaks. *)
Definition QueueThread_run_turn (w : World Q) : World Q :=
  if queue_thread_alive w then
    if active w then
      match QueueThread_run_iteration w with
      | (Ok Continue, w') => w'
      | (_, w') => set_queue_thread_alive false w'
      end
    else set_queue_thread_alive false w
  else w.

(** [QueueThread.run], the loop test alone: the thread goes on to the
    body, where it waits in [next()], or ends. *)
Definition QueueThread_run_enters (w : World Q) : World Q :=
  if queue_thread_alive w then
    if queue_thread_in_turn w then w
    else if active w then set_queue_thread_in_turn true w
    else set_queue_thread_alive false w
  else w.

(** [QueueThread.run], the body of the turn that was entered, whatever
    has become of the flag since the test; the thread is back at the
    test, or has ended. *)
Definition QueueThread_run_completes (w : World Q) : World Q :=
  if queue_thread_alive w then
    if queue_thread_in_turn w then
      match QueueThread_run_iteration w with
      | (Ok Continue, w') => set_queue_thread_in_turn false w'
      | (_, w') => set_queue_thread_alive false (set_queue_thread_in_turn false w')
      end
    else w
  else w.

(** [ResponsesThread.run], one turn of
    [while self.ansible_processor_service.active] with nothing in between,
    taken when the read does not block; an exception other than
    [EOFError] ends the thread. *)
Definition ResponsesThread_run_turn (w : World Q) : World Q :=
  if responses_thread_alive w then
    if active w then
      if recv_ready w then
        match ResponsesThread_run_iteration w with
        | (Ok _, w') => w'
        | (_, w') => set_responses_thread_alive false w'
        end
      else w
    else set_responses_thread_alive false w
  else w.

(** [ResponsesThread.run], the loop test alone: the thread goes on to the
    body, where it waits in [recv()], or ends. *)
Definition ResponsesThread_run_enters (w : World Q) : World Q :=
  if responses_thread_alive w then
    if responses_thread_in_turn w then w
    else if active w then set_responses_thread_in_turn true w
    else set_responses_thread_alive false w
  else w.

(** [ResponsesThread.run], the body of the turn that was entered, once
    the read does not block, whatever has become of the flag since the
    test. *)
Definition ResponsesThread_run_completes (w : World Q) : World Q :=
  if responses_thread_alive w then
    if responses_thread_in_turn w then
      if recv_ready w then
        match ResponsesThread_run_iteration w with
        | (Ok _, w') => set_responses_thread_in_turn false w'
        | (_, w') =>
            set_responses_thread_alive false (set_responses_thread_in_turn false w')
        end
      else w
    else w
  else w.

(** The [i]-th started worker runs to its end, on the connection as the
    service has it. *)
Definition worker_runs (i : nat) (w : World Q) : World Q :=
  match workers w !! i with
  | Some worker => snd (Worker_run worker (set_workers (delete i (workers w)) w))
  | None => w
  end.

(** The [i]-th started worker, an [AnsibleWorkerProcess], runs to its end
    in its child process.  Its [send_pipe] is the copy of the connection
    that the fork made, open here; what it sends arrives in the same
    pipe, and the connection of the service is left as it is. *)
Definition forked_worker_runs (i : nat) (w : World Q) : World Q :=
  match workers w !! i with
  | Some worker =>
      match worker_kind worker with
      | ProcessWorker =>
          let w1 :=
            snd (AnsibleWorkerProcess_run worker
                   (set_send_pipe (mkPipe false (pipe_buffer (send_pipe w)))
                      (set_workers (delete i (workers w)) w))) in
          set_send_pipe
            (mkPipe (pipe_closed (send_pipe w)) (pipe_buffer (send_pipe w1))) w1
      | ThreadWorker => w
      end
  | None => w
  end.

Definition perform (o : operation) (w : World Q) : World Q :=
  match o with
  | CallRunLifecycle request => snd (run_lifecycle request w)
  | CallQueueStatus => snd (queue_status w)
  | CallShutdown => snd (shutdown w)
  | SignalSIGINT => snd (sigint_handler w)
  | DispatchLoopTurn => QueueThread_run_turn w
  | AggregatorTurn => ResponsesThread_run_turn w
  | WorkerRuns i => worker_runs i w
  | EnvironmentChanges e => set_env e w
  | DispatchLoopEnters => QueueThread_run_enters w
  | DispatchLoopCompletes => QueueThread_run_completes w
  | AggregatorEnters => ResponsesThread_run_enters w
  | AggregatorCompletes => ResponsesThread_run_completes w
  | ForkedWorkerRuns i => forked_worker_runs i w
  end.

(** A sequence of operations, first to last. *)
Definition perform_all (os : list operation) (w : World Q) : World Q :=
  foldl (fun w o => perform o w) w os.

(** *** Reading a trace *)

(** The results published to the messaging service. *)
Definition published (evs : list event) : list LifecycleExecution :=
  omap (fun ev => match ev with EvSendLifecycleExecution le => Some le | _ => None end) evs.

(** The objects written to the result pipe. *)
Definition written (evs : list event) : list (option LifecycleExecution) :=
  omap (fun ev => match ev with EvPipeSend x => Some x | _ => None end) evs.

(** The calls made on the request queue. *)
Definition is_queue_call (ev : event) : bool :=
  match ev with
  | EvQueueSize | EvQueuePut _ | EvQueueNext | EvQueueTaskDone
  | EvQueueShutdown | EvQueueStatus => true
  | _ => false
  end.

Definition is_put (ev : event) : bool :=
  match ev with EvQueuePut _ => true | _ => false end.

Definition queue_calls (evs : list event) : list event := filter is_queue_call evs.

Definition count_event (ev : event) (evs : list event) : nat :=
  length (filter (fun x => bool_decide (x = ev)) evs).

(** The calls made between two states of one run. *)
Definition events_since (w w' : World Q) : list event :=
  drop (length (trace w)) (trace w').

(** [w'] comes after [w] in one run: its trace is the trace of [w]
    followed by the calls made since. *)
Definition extends (w w' : World Q) : Prop :=
  trace w' = trace w ++ events_since w w'.

(** The three fields [run_lifecycle] requires, in the order it tests
    them, and the first of them a request lacks. *)
Definition required_fields : list string :=
  ["request_id"; "lifecycle_name"; "lifecycle_path"].

Definition first_missing_field (request : Request) : option string :=
  find (fun key => negb (contains request key)) required_fields.

(** *** Invariants *)

(** [stable w w']: between [w] and [w'] the configuration and the counter
    were left alone, the flag was not raised and [Counter.decrement] was
    not called.  Every method but [Counter.increment] and
    [Counter.decrement] is stable, which the lemmas below establish
    statement by statement. *)
Definition stable (w w' : World Q) : Prop :=
  process_properties w' = process_properties w /\
  counter w' = counter w /\
  (active w = false -> active w' = false) /\
  count_event EvCounterDecrement (trace w')
    = count_event EvCounterDecrement (trace w).

Definition stable_m {A} (m : M A) : Prop := forall w, stable w (snd (m w)).

(** [evolves w w']: as [stable], but the counter may also have been
    incremented once, from a value below the limit. *)
Definition evolves (w w' : World Q) : Prop :=
  process_properties w' = process_properties w /\
  (active w = false -> active w' = false) /\
  count_event EvCounterDecrement (trace w')
    = count_event EvCounterDecrement (trace w) /\
  (counter w' = counter w \/
   (counter w < max_concurrent_ansible_processes (process_properties w) /\
    counter w' = c_int (counter w + 1))).

(** What holds of the counter in every state the service goes through,
    when the limit is one a C [int] can hold. *)
Definition counter_ok (w : World Q) : Prop :=
  max_concurrent_ansible_processes (process_properties w) <= INT_MAX /\
  0 <= counter w <= INT_MAX /\
  count_event EvCounterDecrement (trace w) = 0%nat.

(** *** Frames *)

Definition is_start (ev : event) : bool :=
  match ev with EvWorkerStart _ => true | _ => false end.

Definition is_publish (ev : event) : bool :=
  match ev with EvSendLifecycleExecution _ => true | _ => false end.

Definition is_pipe_call (ev : event) : bool :=
  match ev with EvPipeSend _ | EvPipeClose | EvPipeRecv => true | _ => false end.

Definition is_counter_call (ev : event) : bool :=
  match ev with
  | EvCounterIncrement | EvCounterDecrement | EvCounterValue => true
  | _ => false
  end.

Definition is_recv (ev : event) : bool :=
  match ev with EvPipeRecv => true | _ => false end.

Definition is_client_call (ev : event) : bool :=
  match ev with EvRunLifecyclePlaybook _ => true | _ => false end.

(** [quiet proj P w w']: between [w] and [w'] the part [proj] of the state
    was left alone and no call that satisfies [P] was made. *)
Definition quiet {A} (proj : World Q -> A) (P : event -> bool)
    (w w' : World Q) : Prop :=
  proj w' = proj w /\ filter P (trace w') = filter P (trace w).

(** What no step of an undisturbed run changes. *)
Definition settings_kept (w w' : World Q) : Prop :=
  process_properties w' = process_properties w /\
  env w' = env w /\
  active w' = active w /\
  queue_thread_alive w' = queue_thread_alive w /\
  responses_thread_alive w' = responses_thread_alive w.

Definition quiet_m {A B} (proj : World Q -> A) (P : event -> bool)
    (m : M B) : Prop :=
  forall w, quiet proj P w (snd (m w)).

(** *** Turns under way *)

(** The bodies a loop thread still runs without looking at the flag
    again: one when it is past its test, none when it is at the test or
    has ended. *)
Definition turn_pending (alive in_turn : bool) : nat :=
  if alive && in_turn then 1%nat else 0%nat.

(** Where the two loops are. *)
Definition loops (w : World Q) : bool * bool * bool * bool :=
  (queue_thread_alive w, queue_thread_in_turn w,
   responses_thread_alive w, responses_thread_in_turn w).

(** The workers started and the reads of the result pipe so far. *)
Definition starts (w : World Q) : nat := length (filter is_start (trace w)).

Definition pipe_reads (w : World Q) : nat := length (filter is_recv (trace w)).

(** The operations of the dispatch loop and of the aggregator. *)
Definition is_dispatch_operation (o : operation) : bool :=
  match o with
  | DispatchLoopTurn | DispatchLoopEnters | DispatchLoopCompletes => true
  | _ => false
  end.

Definition is_aggregator_operation (o : operation) : bool :=
  match o with
  | AggregatorTurn | AggregatorEnters | AggregatorCompletes => true
  | _ => false
  end.

End Service.

Arguments M Q A : clear implicits.

(** ** [to_lifecycle_execution] *)

(** A JSON value as [json.loads] gives it: [None], a boolean, a number, a
    string, a list or a dict with string keys. *)
#[warnings="-register-all"]
Inductive jval :=
| JNull
| JBool (b : bool)
| JNum (n : Z)
| JStr (s : string)
| JArr (l : list jval)
| JObj (o : gmap string jval).

(** What [x[key]] with a string key raises: [KeyError(key)] on a dict
    without the key, [TypeError] on anything that is not a dict. *)
Inductive subscript_error :=
| SubscriptKeyError (key : string)
| SubscriptTypeError.

(** [x[key]], [key] a string. *)
Definition subscript (x : jval) (key : string) : subscript_error + jval :=
  match x with
  | JObj o =>
      match o !! key with
      | Some v => inr v
      | None => inl (SubscriptKeyError key)
      end
  | _ => inl SubscriptTypeError
  end.

(** Evaluation in sequence: the first error ends it. *)
Definition and_then {A B} (x : subscript_error + A)
    (f : A -> subscript_error + B) : subscript_error + B :=
  match x with
  | inl e => inl e
  | inr a => f a
  end.

(** The arguments [LifecycleExecution(...)] is called with;
    [FailureDetails(code, description)] is the pair of its arguments. *)
Record LifecycleExecutionArgs := mkLifecycleExecutionArgs {
  arg_request_id : jval;
  arg_status : jval;
  arg_failure_details : option (jval * jval);
  arg_outputs : jval
}.

(** [AnsibleProcessorService.to_lifecycle_execution(json)], [json] a
    dict. *)
Definition to_lifecycle_execution (json : gmap string jval)
  : subscript_error + LifecycleExecutionArgs :=
  and_then
    (match json !! "failure_details" with
     | None | Some JNull => inr None
     | Some _ =>
         and_then (subscript (JObj json) "failure_details") (fun fd1 =>
         and_then (subscript fd1 "failure_code") (fun code =>
         and_then (subscript (JObj json) "failure_details") (fun fd2 =>
         and_then (subscript fd2 "description") (fun text =>
         inr (Some (code, text))))))
     end)
    (fun failure_details =>
       and_then (subscript (JObj json) "request_id") (fun rid =>
       and_then (subscript (JObj json) "status") (fun st =>
       and_then (subscript (JObj json) "outputs") (fun outs =>
       inr (mkLifecycleExecutionArgs rid st failure_details outs))))).

(** The keys the conversion reads from the dict itself, in the order it
    reads them once the failure details are built. *)
Definition execution_keys : list string := ["request_id"; "status"; "outputs"].

(** ** A first-in first-out queue *)

(** Modelled from the spec: the bounded queue collaborator
    ([ansibledriver.service.queue.RequestQueue], absent from the sources),
    after sections 3 and 6 of the specification: an ordered sequence of
    requests delivered first-in first-out, [put] inserting at the back
    without a capacity check of its own, [next] giving nothing when the
    queue is empty, [size] the current depth, [task_done] acknowledging
    the most recent [next], [shutdown] that stops accepting and delivers
    the sentinel, and [queue_status] a snapshot of depth and capacity. *)
Record FifoQueue := mkFifoQueue {
  fifo_items : list item;
  fifo_unfinished : nat;
  fifo_accepting : bool;
  fifo_capacity : Z
}.

Definition fifo_put (x : item) (q : FifoQueue) : FifoQueue :=
  if fifo_accepting q then
    mkFifoQueue (fifo_items q ++ [x]) (fifo_unfinished q) true (fifo_capacity q)
  else q.

Definition fifo_next (q : FifoQueue) : option item * FifoQueue :=
  match fifo_items q with
  | x :: rest =>
      (Some x, mkFifoQueue rest (S (fifo_unfinished q)) (fifo_accepting q) (fifo_capacity q))
  | [] => (None, q)
  end.

Definition fifo_size (q : FifoQueue) : Z := Z.of_nat (length (fifo_items q)).

Definition fifo_task_done (q : FifoQueue) : FifoQueue :=
  mkFifoQueue (fifo_items q) (Nat.pred (fifo_unfinished q)) (fifo_accepting q) (fifo_capacity q).

Definition fifo_shutdown (q : FifoQueue) : FifoQueue :=
  mkFifoQueue (fifo_items q ++ [SHUTDOWN_MESSAGE]) (fifo_unfinished q) false (fifo_capacity q).

Definition fifo_queue_status (q : FifoQueue) : Z * Z := (fifo_size q, fifo_capacity q).

#[global] Instance FifoQueue_RequestQueue : RequestQueue FifoQueue := {
  queue_put := fifo_put;
  queue_next := fifo_next;
  queue_size := fifo_size;
  queue_task_done := fifo_task_done;
  queue_shutdown := fifo_shutdown;
  queue_queue_status := fifo_queue_status
}.

(** *** Sample data *)

(** The request of [test_run_lifecycle], with a fixed id. *)
Definition install_request (rid : string) : Request :=
  <["lifecycle_name" := VStr "install"]>
  (<["lifecycle_path" := VDirectoryTree "./"]>
  (<["system_properties" := VDict []]>
  (<["properties" := VDict []]>
  (<["deployment_location" := VDict []]>
  (<["request_id" := VStr rid]> ∅))))).

(** A client that completes every request that carries an id, and returns
    nothing for one that does not. *)
Definition completing_client (request : Request) : outcome (option LifecycleExecution) :=
  match request !! "request_id" with
  | Some rid => Ok (Some (mkLifecycleExecution rid STATUS_COMPLETE None ∅))
  | None => Ok None
  end.

(** A client that always raises. *)
Definition failing_client (request : Request) : outcome (option LifecycleExecution) :=
  Raise (mkExn RuntimeError "playbook failed").

(** A client that returns [None]. *)
Definition silent_client (request : Request) : outcome (option LifecycleExecution) :=
  Ok None.

Definition calm (client : Request -> outcome (option LifecycleExecution)) : Env :=
  mkEnv client (fun _ => None) None (fun _ => None).

Definition empty_queue (capacity : Z) : FifoQueue := mkFifoQueue [] 0 true capacity.

Definition sample_world (properties : ProcessProperties) (environment : Env)
    (queue : FifoQueue) : World FifoQueue :=
  {| process_properties := properties;
     env := environment;
     active := true;
     counter := 0;
     request_queue := queue;
     send_pipe := mkPipe false [];
     sigchld_handler := SIG_DFL;
     workers := [];
     queue_thread_alive := true;
     responses_thread_alive := true;
     trace := [EvSignalSIGCHLD SIG_IGN];
     log := [];
     queue_thread_in_turn := false;
     responses_thread_in_turn := false |}.

(** The service of [setUp]. *)
Definition test_world : World FifoQueue :=
  sample_world ProcessProperties__init__ (calm completing_client) (empty_queue 100).

(** [test_max_queue_size]: a queue size of 1 and one request waiting. *)
Definition small_queue_properties : ProcessProperties :=
  {| process_pool_size := 10;
     max_concurrent_ansible_processes := 10;
     max_queue_size := 1;
     use_pool := false;
     is_threaded := false |}.

Definition overloaded_world : World FifoQueue :=
  sample_world small_queue_properties (calm completing_client)
    (mkFifoQueue [Req (install_request "a")] 0 true 1).

(** [test_shutdown]: the service after [shutdown()]. *)
Definition inactive_world : World FifoQueue := snd (shutdown test_world).

(** Requests that fail validation. *)
Definition request_without_name : Request :=
  delete "lifecycle_name" (install_request "a").

Definition request_without_name_and_path : Request :=
  delete "lifecycle_path" (delete "lifecycle_name" (install_request "a")).

(** A service whose client raises, and one whose client returns [None]. *)
Definition failing_world : World FifoQueue :=
  sample_world ProcessProperties__init__ (calm failing_client) (empty_queue 100).

Definition silent_world : World FifoQueue :=
  sample_world ProcessProperties__init__ (calm silent_client) (empty_queue 100).

(** One request waiting for the dispatch loop: with no worker in flight,
    with as many as the limit allows, and with an operating system that
    refuses to start a worker. *)
Definition queued_world : World FifoQueue :=
  sample_world ProcessProperties__init__ (calm completing_client)
    (mkFifoQueue [Req (install_request "a")] 0 true 100).


Definition refusing_world : World FifoQueue :=
  set_env (mkEnv completing_client (fun _ => None)
             (Some (mkExn RuntimeError "can't start new thread"))
             (fun _ => None))
    queued_world.

(** The sentinel waiting for a dispatch thread that is still running. *)
Definition sentinel_world : World FifoQueue :=
  sample_world ProcessProperties__init__ (calm completing_client)
    (mkFifoQueue [SHUTDOWN_MESSAGE] 0 false 100).

(** One request waiting, and a counter whose lock cannot be taken for a
    read. *)
Definition unreadable_counter_world : World FifoQueue :=
  set_env (mkEnv completing_client
             (fun op => match op with
                        | OpValue => Some (mkExn OSError "lock failed")
                        | _ => None
                        end)
             None (fun _ => None))
    queued_world.

(** A counter at the largest C [int]. *)
Definition full_counter_world : World FifoQueue := set_counter INT_MAX test_world.

(** Two results and a [None] in the pipe, and the pipe at end of stream. *)
Definition result_of (rid : string) : LifecycleExecution :=
  mkLifecycleExecution (VStr rid) STATUS_COMPLETE None ∅.

Definition piped_world : World FifoQueue :=
  set_send_pipe
    (mkPipe false [Some (result_of "a"); None; Some (result_of "b");
                   Some (result_of "c")])
    test_world.


(** A worker for the request of the tests, of either variant. *)
Definition sample_worker (kind : WorkerKind) : Worker :=
  mkWorker kind (Some (install_request "a")).

(** The JSON form of a failed execution. *)
Definition failed_json : gmap string jval :=
  <["request_id" := JStr "a"]>
  (<["status" := JStr "FAILED"]>
  (<["failure_details" :=
       JObj (<["failure_code" := JStr "INTERNAL_ERROR"]>
             (<["description" := JStr "playbook failed"]> ∅))]>
  (<["outputs" := JObj ∅]> ∅))).

(** Two submissions: the first request is dispatched, run and reported
    before the second arrives. *)
Definition sample_day : list operation :=
  [CallRunLifecycle (install_request "a"); DispatchLoopTurn; WorkerRuns 0;
   AggregatorTurn; CallRunLifecycle (install_request "b")].

(** The defaults with worker threads, with the static pool, and with a
    limit on concurrent workers one above the largest C [int]. *)
Definition threaded_properties : ProcessProperties :=
  {| process_pool_size := 10;
     max_concurrent_ansible_processes := 10;
     max_queue_size := 100;
     use_pool := false;
     is_threaded := true |}.

Definition pool_properties : ProcessProperties :=
  {| process_pool_size := 10;
     max_concurrent_ansible_processes := 10;
     max_queue_size := 100;
     use_pool := true;
     is_threaded := false |}.

Definition wide_properties : ProcessProperties :=
  {| process_pool_size := 10;
     max_concurrent_ansible_processes := INT_MAX + 1;
     max_queue_size := 100;
     use_pool := false;
     is_threaded := false |}.

(** The constructor called off the main thread of the interpreter, where
    [signal.signal] raises. *)
Definition off_main_thread : Env :=
  mkEnv completing_client (fun _ => None) None
    (fun c => match c with
              | InitSignalSIGCHLD | InitSignalSIGINT =>
                  Some (mkExn ValueError
                          "signal only works in main thread of the main interpreter")
              | _ => None
              end).

(** A request is submitted and dispatched, and the service is shut down
    before the worker has run. *)
Definition shut_down_early : list operation :=
  [CallRunLifecycle (install_request "a"); DispatchLoopTurn; CallShutdown].


(** A request is submitted and dispatched at once, [n] times over. *)
Definition round : list operation :=
  [CallRunLifecycle (install_request "a"); DispatchLoopTurn].

Fixpoint rounds (n : nat) : list operation :=
  match n with
  | O => []
  | S n => round ++ rounds n
  end.

(** The service of [wide_properties] between two rounds, [c] workers
    started: the queue is empty again and both the service and the
    dispatch loop go on. *)
Definition between_rounds (c : Z) (w : World FifoQueue) : Prop :=
  process_properties w = wide_properties /\
  env w = calm completing_client /\
  active w = true /\
  queue_thread_alive w = true /\
  request_queue w = empty_queue 100 /\
  counter w = c.

(** The shutdown comes while the dispatch loop waits in [next()] for the
    request that was submitted. *)
Definition shutdown_during_dispatch : list operation :=
  [CallRunLifecycle (install_request "a"); DispatchLoopEnters; CallShutdown;
   DispatchLoopCompletes; DispatchLoopEnters].

(** The shutdown comes while a worker process is at work and the
    aggregator waits in [recv()]. *)
Definition shutdown_during_work : list operation :=
  [CallRunLifecycle (install_request "a"); DispatchLoopTurn; AggregatorEnters;
   CallShutdown; ForkedWorkerRuns 0; AggregatorCompletes; AggregatorEnters].

(** * Properties *)

Section Properties.

Context {Q : Type} `{RequestQueue Q}.

Implicit Types (w : World Q) (request : Request).

(** Unfolding the monad. *)
Ltac unfold_monad :=
  unfold traceback_print_exc in *;
  unfold emit, logger in *;
  unfold mbind, M_bind, mret, M_ret, raise, exit, gets, modify,
    try_except, try_except_EOFError, try_finally in *.

Lemma contains_true request key :
  contains request key = true <-> is_Some (request !! key).
Proof. unfold contains. apply bool_decide_eq_true. Qed.

Lemma contains_false request key :
  contains request key = false <-> request !! key = None.
Proof.
  unfold contains. rewrite bool_decide_eq_false. rewrite eq_None_not_Some. done.
Qed.

Lemma events_since_app w w' evs :
  trace w' = trace w ++ evs -> events_since w w' = evs.
Proof. intros E. unfold events_since. rewrite E. apply drop_app_length. Qed.

(** Reading off what a run added to the trace. *)
Ltac since_trace :=
  unfold extends;
  repeat (erewrite events_since_app
            by (simpl; rewrite <- ?app_assoc; reflexivity));
  simpl; rewrite <- ?app_assoc; simpl.

(** ** Validation *)

(** C2. A request that lacks [request_id], [lifecycle_name] or
    [lifecycle_path] makes [run_lifecycle] raise a [ValueError] whose
    message names a field the request lacks; the state is the one before
    the call, so no call on the queue was made and nothing was published. *)
Theorem run_lifecycle_missing_field request w :
  request !! "request_id" = None \/
  request !! "lifecycle_name" = None \/
  request !! "lifecycle_path" = None ->
  exists field : string,
    field ∈ required_fields /\
    request !! field = None /\
    run_lifecycle request w
      = (Raise (mkExn ValueError ("Request must have a " +:+ field)), w) /\
    events_since w (snd (run_lifecycle request w)) = [].
Proof.
  intros Hmiss. unfold run_lifecycle.
  destruct (contains request "request_id") eqn:E1; simpl.
  - destruct (contains request "lifecycle_name") eqn:E2; simpl.
    + destruct (contains request "lifecycle_path") eqn:E3; simpl.
      * apply contains_true in E1, E2, E3.
        destruct Hmiss as [Hm | [Hm | Hm]]; rewrite Hm in *;
          by match goal with X : is_Some None |- _ => destruct X end.
      * exists "lifecycle_path". apply contains_false in E3.
        repeat split; [repeat constructor | done |]. apply drop_all.
    + exists "lifecycle_name". apply contains_false in E2.
      repeat split; [repeat constructor | done |]. apply drop_all.
  - exists "request_id". apply contains_false in E1.
    repeat split; [repeat constructor | done |]. apply drop_all.
Qed.

(** C10. The fields are tested in the order [request_id],
    [lifecycle_name], [lifecycle_path], before the active flag and the
    queue are looked at: the [ValueError] names the first field the
    request lacks, whatever the state, an inactive service included. *)
Theorem run_lifecycle_names_first_missing request w field :
  first_missing_field request = Some field ->
  run_lifecycle request w
    = (Raise (mkExn ValueError ("Request must have a " +:+ field)), w).
Proof.
  unfold first_missing_field, required_fields, run_lifecycle. simpl.
  destruct (contains request "request_id"); simpl.
  - destruct (contains request "lifecycle_name"); simpl.
    + destruct (contains request "lifecycle_path"); simpl.
      * discriminate.
      * by intros [= <-].
    + by intros [= <-].
  - by intros [= <-].
Qed.

(** ** Admission *)

(** The admission tests of [run_lifecycle] are reached exactly when the
    three fields are there. *)
Lemma run_lifecycle_validated request w :
  is_Some (request !! "request_id") ->
  is_Some (request !! "lifecycle_name") ->
  is_Some (request !! "lifecycle_path") ->
  run_lifecycle request w =
    (shown ← request_queue_size;
     logger DEBUG "request_queue.size {0} max_queue_size {1}";;
     a ← gets active;
     if (a : bool) then
       size ← request_queue_size;
       limit ← gets (fun w => max_queue_size (process_properties w));
       if limit <=? size then
         rid ← getitem request "request_id";
         send_lifecycle_execution
           (insufficient_capacity_result rid
              "Request cannot be handled, driver is overloaded")
       else
         request_queue_put (Req request)
     else
       rid ← getitem request "request_id";
       send_lifecycle_execution
         (insufficient_capacity_result rid "Driver is inactive")) w.
Proof.
  intros H1 H2 H3. apply contains_true in H1, H2, H3.
  unfold run_lifecycle. by rewrite H1, H2, H3.
Qed.

(** C1, with the description the code sends.  A well-formed request
    submitted to an active service whose queue holds at least
    [max_queue_size] entries is answered at once: [run_lifecycle] returns,
    its calls are two reads of the queue size (one for the debug line, one
    for the test) and one publication, of a FAILED result with code
    [FAILURE_CODE_INSUFFICIENT_CAPACITY] and description
    "Request cannot be handled, driver is overloaded"; [put] is not
    called and the queue is as before. *)
Theorem run_lifecycle_overloaded request w :
  is_Some (request !! "request_id") ->
  is_Some (request !! "lifecycle_name") ->
  is_Some (request !! "lifecycle_path") ->
  active w = true ->
  max_queue_size (process_properties w) <= queue_size (request_queue w) ->
  exists rid,
    request !! "request_id" = Some rid /\
    fst (run_lifecycle request w) = Ok tt /\
    extends w (snd (run_lifecycle request w)) /\
    events_since w (snd (run_lifecycle request w))
      = [EvQueueSize; EvQueueSize;
         EvSendLifecycleExecution
           (mkLifecycleExecution rid STATUS_FAILED
              (Some (mkFailureDetails FAILURE_CODE_INSUFFICIENT_CAPACITY
                       "Request cannot be handled, driver is overloaded"))
              ∅)] /\
    published (events_since w (snd (run_lifecycle request w)))
      = [mkLifecycleExecution rid STATUS_FAILED
           (Some (mkFailureDetails FAILURE_CODE_INSUFFICIENT_CAPACITY
                    "Request cannot be handled, driver is overloaded"))
           ∅] /\
    filter is_put (events_since w (snd (run_lifecycle request w))) = [] /\
    request_queue (snd (run_lifecycle request w)) = request_queue w.
Proof.
  intros H1 H2 H3 Hact Hfull.
  rewrite (run_lifecycle_validated _ _ H1 H2 H3).
  destruct H1 as [rid Hrid]. exists rid. split; [done |].
  unfold request_queue_size, getitem, send_lifecycle_execution.
  unfold_monad. simpl. rewrite Hact. simpl.
  apply Z.leb_le in Hfull. rewrite Hfull. rewrite Hrid. simpl.
  by since_trace.
Qed.

(** C3, with the one queue call the code makes.  A well-formed request
    submitted to an inactive service is answered at once:
    [run_lifecycle] returns, its calls are one read of the queue size
    (for the debug line, which comes before the test of the flag) and one
    publication, of a FAILED result with code
    [FAILURE_CODE_INSUFFICIENT_CAPACITY] and description
    "Driver is inactive"; [put] is not called and the queue is as
    before. *)
Theorem run_lifecycle_inactive request w :
  is_Some (request !! "request_id") ->
  is_Some (request !! "lifecycle_name") ->
  is_Some (request !! "lifecycle_path") ->
  active w = false ->
  exists rid,
    request !! "request_id" = Some rid /\
    fst (run_lifecycle request w) = Ok tt /\
    extends w (snd (run_lifecycle request w)) /\
    events_since w (snd (run_lifecycle request w))
      = [EvQueueSize;
         EvSendLifecycleExecution
           (mkLifecycleExecution rid STATUS_FAILED
              (Some (mkFailureDetails FAILURE_CODE_INSUFFICIENT_CAPACITY
                       "Driver is inactive"))
              ∅)] /\
    published (events_since w (snd (run_lifecycle request w)))
      = [mkLifecycleExecution rid STATUS_FAILED
           (Some (mkFailureDetails FAILURE_CODE_INSUFFICIENT_CAPACITY
                    "Driver is inactive"))
           ∅] /\
    filter is_put (events_since w (snd (run_lifecycle request w))) = [] /\
    request_queue (snd (run_lifecycle request w)) = request_queue w.
Proof.
  intros H1 H2 H3 Hact.
  rewrite (run_lifecycle_validated _ _ H1 H2 H3).
  destruct H1 as [rid Hrid]. exists rid. split; [done |].
  unfold request_queue_size, getitem, send_lifecycle_execution.
  unfold_monad. simpl. rewrite Hact. simpl. rewrite Hrid. simpl.
  by since_trace.
Qed.

(** ** Worker isolates *)

(** C4, for a worker whose end of the pipe is open.  A worker of either
    variant that holds a request, whose call of the client raises [e],
    returns normally: the exception does not leave [run].  It writes one
    object to the result pipe, a FAILED result with the request's
    [request_id], code [FAILURE_CODE_INTERNAL_ERROR] and a description
    that ends in [str(e)].  The request is one that passed validation (it
    has a [request_id]) and the worker's end of the pipe is open: the
    result is sent from the handler, outside any [try], so on a pipe that
    [shutdown] has closed the [send] raises out of [run]. *)
Theorem worker_reports_exception (self : Worker) request (rid : value) (e : exn) w :
  worker_request self = Some request ->
  request !! "request_id" = Some rid ->
  run_lifecycle_playbook (env w) request = Raise e ->
  pipe_closed (send_pipe w) = false ->
  forall run : Worker -> M Q unit,
    run = AnsibleWorkerThread_run \/ run = AnsibleWorkerProcess_run ->
    fst (run self w) = Ok tt /\
    extends w (snd (run self w)) /\
    written (events_since w (snd (run self w)))
      = [Some (mkLifecycleExecution rid STATUS_FAILED
                 (Some (mkFailureDetails FAILURE_CODE_INTERNAL_ERROR
                          ("Unexpected exception: " +:+ exn_str e)))
                 ∅)] /\
    pipe_buffer (send_pipe (snd (run self w)))
      = pipe_buffer (send_pipe w)
        ++ [Some (mkLifecycleExecution rid STATUS_FAILED
                    (Some (mkFailureDetails FAILURE_CODE_INTERNAL_ERROR
                             ("Unexpected exception: " +:+ exn_str e)))
                    ∅)].
Proof.
  intros Hreq Hrid Hraise Hopen run [-> | ->].
  - unfold AnsibleWorkerThread_run, ansible_client_run_lifecycle_playbook,
      traceback_print_exc, getitem, send_pipe_send, internal_error_result.
    rewrite Hreq, Hrid. unfold_monad. simpl.
    rewrite Hraise. simpl. rewrite Hopen. simpl.
    by since_trace.
  - unfold AnsibleWorkerProcess_run, ansible_client_run_lifecycle_playbook,
      traceback_print_exc, getitem, send_pipe_send, internal_error_result.
    rewrite Hreq, Hrid. unfold_monad. simpl.
    rewrite Hraise. simpl. rewrite Hopen. simpl.
    by since_trace.
Qed.

(** C8. A worker of either variant that holds a request, whose call of
    the client returns [None], returns without a call on the result pipe:
    nothing is written, the pipe is as before, and the run leaves one
    warning in the log. *)
Theorem worker_silent_on_empty_response (self : Worker) request w :
  worker_request self = Some request ->
  run_lifecycle_playbook (env w) request = Ok None ->
  forall run : Worker -> M Q unit,
    run = AnsibleWorkerThread_run \/ run = AnsibleWorkerProcess_run ->
    fst (run self w) = Ok tt /\
    extends w (snd (run self w)) /\
    written (events_since w (snd (run self w))) = [] /\
    published (events_since w (snd (run self w))) = [] /\
    send_pipe (snd (run self w)) = send_pipe w /\
    log (snd (run self w))
      = log w ++ [(WARN, "Empty response from Ansible worker for request {0}")].
Proof.
  intros Hreq Hnone run [-> | ->].
  - unfold AnsibleWorkerThread_run, ansible_client_run_lifecycle_playbook.
    rewrite Hreq. unfold_monad. simpl. rewrite Hnone. simpl.
    by since_trace.
  - unfold AnsibleWorkerProcess_run, ansible_client_run_lifecycle_playbook.
    rewrite Hreq. unfold_monad. simpl. rewrite Hnone. simpl.
    by since_trace.
Qed.

(** ** The dispatch loop *)

Ltac unfold_dispatch :=
  unfold QueueThread_run_iteration, QueueThread_run_try, request_queue_next,
    request_queue_task_done, request_queue_put, Counter_value,
    Counter_increment, Worker_start, with_lock, traceback_print_exc,
    is_shutdown_message.


(** C7. One turn of the dispatch loop that takes a request [r] (not the
    sentinel) from the queue and reads the counter calls [task_done]
    exactly once, whether or not the increment or the start of the worker
    raises, and goes on to the next turn.  Below the limit the
    acknowledgement is the last call of the turn, after the increment and,
    unless the increment raised, the start of the worker; at or above the
    limit it comes before the [put] that hands [r] back. *)
Theorem dispatch_acknowledges_once (r : Request) (q' : Q) w :
  queue_next (request_queue w) = (Some (Req r), q') ->
  lock_fault (env w) OpValue = None ->
  let limit := max_concurrent_ansible_processes (process_properties w) in
  let worker :=
    mkWorker (if is_threaded (process_properties w) then ThreadWorker
              else ProcessWorker) (Some r) in
  let w' := snd (QueueThread_run_iteration w) in
  fst (QueueThread_run_iteration w) = Ok Continue /\
  extends w w' /\
  count_event EvQueueTaskDone (events_since w w') = 1%nat /\
  (counter w < limit ->
     events_since w w'
       = [EvQueueNext; EvCounterValue; EvCounterIncrement]
         ++ match lock_fault (env w) OpIncrement with
            | Some _ => []
            | None => [EvWorkerStart worker]
            end
         ++ [EvQueueTaskDone]) /\
  (limit <= counter w ->
     events_since w w'
       = [EvQueueNext; EvCounterValue; EvQueueTaskDone; EvQueuePut (Req r)]).
Proof.
  intros Hnext Hvalue limit worker w'. subst limit worker w'.
  unfold_dispatch. unfold_monad. simpl.
  rewrite Hnext. simpl. rewrite Hvalue. simpl.
  destruct (counter w <? max_concurrent_ansible_processes (process_properties w))
    eqn:Hcmp; simpl.
  - apply Z.ltb_lt in Hcmp.
    destruct (lock_fault (env w) OpIncrement) as [e1 |]; simpl.
    + since_trace. repeat split; intros; done || lia.
    + destruct (is_threaded (process_properties w)); simpl;
        destruct (start_fault (env w)) as [e2 |]; simpl;
        since_trace; repeat split; intros; done || lia.
  - apply Z.ltb_ge in Hcmp. since_trace. repeat split; intros; done || lia.
Qed.

(** ** Invariants of the running system *)

Lemma stable_refl w : stable w w.
Proof. by repeat split. Qed.

Lemma stable_trans w1 w2 w3 : stable w1 w2 -> stable w2 w3 -> stable w1 w3.
Proof.
  intros (P1 & C1 & A1 & D1) (P2 & C2 & A2 & D2).
  repeat split; [congruence | congruence | auto | congruence].
Qed.

Lemma count_event_snoc (ev x : event) (evs : list event) :
  count_event ev (evs ++ [x])
    = (count_event ev evs + if bool_decide (x = ev) then 1 else 0)%nat.
Proof.
  unfold count_event. rewrite filter_app, length_app. simpl.
  unfold filter at 2. simpl. by destruct (bool_decide (x = ev)).
Qed.

Lemma stable_ret {A} (a : A) : stable_m (Q:=Q) (mret a).
Proof. intros w. apply stable_refl. Qed.

Lemma stable_raise {A} (e : exn) : stable_m (Q:=Q) (raise (A:=A) e).
Proof. intros w. apply stable_refl. Qed.

Lemma stable_exit {A} (c : Z) : stable_m (Q:=Q) (exit (A:=A) c).
Proof. intros w. apply stable_refl. Qed.

Lemma stable_gets {A} (f : World Q -> A) : stable_m (Q:=Q) (gets f).
Proof. intros w. apply stable_refl. Qed.

Lemma stable_modify (f : World Q -> World Q) :
  (forall w, stable w (f w)) -> stable_m (Q:=Q) (modify f).
Proof. intros Hf w. apply Hf. Qed.

Lemma stable_bind {A B} (m : M Q A) (f : A -> M Q B) :
  stable_m m -> (forall a, stable_m (Q:=Q) (f a)) -> stable_m (Q:=Q) (m ≫= f).
Proof.
  intros Hm Hf w. unfold mbind, M_bind. specialize (Hm w).
  destruct (m w) as [[a | e | c] w1]; simpl in *; [| done | done].
  eapply stable_trans; [exact Hm | apply Hf].
Qed.

Lemma stable_try_except {A} (body : M Q A) (handler : exn -> M Q A) :
  stable_m body -> (forall e, stable_m (Q:=Q) (handler e)) ->
  stable_m (Q:=Q) (try_except body handler).
Proof.
  intros Hb Hh w. unfold try_except. specialize (Hb w).
  destruct (body w) as [[a | e | c] w1]; simpl in *; [done | | done].
  eapply stable_trans; [exact Hb | apply Hh].
Qed.

Lemma stable_try_except_EOFError {A} (body handler : M Q A) :
  stable_m body -> stable_m handler ->
  stable_m (Q:=Q) (try_except_EOFError body handler).
Proof.
  intros Hb Hh w. unfold try_except_EOFError. specialize (Hb w).
  destruct (body w) as [[a | e | c] w1]; simpl in *; [done | | done].
  case_bool_decide; [| done].
  eapply stable_trans; [exact Hb | apply Hh].
Qed.

Lemma stable_try_finally {A} (body : M Q A) (final : M Q unit) :
  stable_m body -> stable_m final -> stable_m (Q:=Q) (try_finally body final).
Proof.
  intros Hb Hf w. unfold try_finally. specialize (Hb w).
  destruct (body w) as [o w1]. specialize (Hf w1).
  destruct (final w1) as [[a | e | c] w2]; simpl in *;
    eapply stable_trans; eassumption.
Qed.

Lemma stable_emit (ev : event) :
  ev <> EvCounterDecrement -> stable_m (Q:=Q) (emit ev).
Proof.
  intros Hev w. unfold emit, modify, stable. simpl.
  rewrite count_event_snoc. rewrite bool_decide_eq_false_2 by done.
  repeat split; [done | lia].
Qed.

Lemma stable_logger (lvl : LogLevel) (template : string) :
  stable_m (Q:=Q) (logger lvl template).
Proof. intros w. by repeat split. Qed.

Lemma stable_with_lock {A} (op : CounterOp) (body : M Q A) :
  stable_m body -> stable_m (Q:=Q) (with_lock op body).
Proof.
  intros Hb w. unfold with_lock.
  destruct (lock_fault (env w) op); [apply stable_refl | apply Hb].
Qed.

(** Taking a method apart down to the statements above. *)
Ltac stable_step :=
  lazymatch goal with
  | |- stable_m (mbind _ _) => apply stable_bind; [| intros ?]
  | |- stable_m (mret _) => apply stable_ret
  | |- stable_m (raise _) => apply stable_raise
  | |- stable_m (exit _) => apply stable_exit
  | |- stable_m (gets _) => apply stable_gets
  | |- stable_m (logger _ _) => apply stable_logger
  | |- stable_m (emit _) => apply stable_emit; discriminate
  | |- stable_m (try_except _ _) => apply stable_try_except; [| intros ?]
  | |- stable_m (try_except_EOFError _ _) => apply stable_try_except_EOFError
  | |- stable_m (try_finally _ _) => apply stable_try_finally
  | |- stable_m (with_lock _ _) => apply stable_with_lock
  | |- stable_m (modify _) => apply stable_modify; intros ?; by repeat split
  | |- stable_m (if ?b then _ else _) => destruct b
  | |- stable_m (match ?x with _ => _ end) => destruct x
  | |- stable_m (fun w => (_, w)) => intros ?; apply stable_refl
  end.

Ltac stable_auto := repeat stable_step.

Lemma stable_send_pipe_send x : stable_m (Q:=Q) (send_pipe_send x).
Proof. unfold send_pipe_send. stable_auto. Qed.

Lemma stable_client request :
  stable_m (Q:=Q) (ansible_client_run_lifecycle_playbook request).
Proof. unfold ansible_client_run_lifecycle_playbook. stable_auto. Qed.

Lemma stable_getitem request key : stable_m (Q:=Q) (getitem request key).
Proof. unfold getitem. stable_auto. Qed.

Lemma stable_run_lifecycle request : stable_m (Q:=Q) (run_lifecycle request).
Proof.
  unfold run_lifecycle, request_queue_size, request_queue_put, getitem,
    send_lifecycle_execution.
  stable_auto.
Qed.

Lemma stable_queue_status : stable_m (Q:=Q) queue_status.
Proof. unfold queue_status, request_queue_queue_status. stable_auto. Qed.

Lemma stable_shutdown : stable_m (Q:=Q) shutdown.
Proof.
  unfold shutdown, request_queue_shutdown, send_pipe_close. stable_auto.
Qed.

Lemma stable_sigint_handler : stable_m (Q:=Q) sigint_handler.
Proof.
  unfold sigint_handler. stable_auto. apply stable_shutdown.
Qed.

Lemma stable_ResponsesThread_run_iteration : stable_m (Q:=Q) ResponsesThread_run_iteration.
Proof.
  unfold ResponsesThread_run_iteration, recv_pipe_recv, send_lifecycle_execution.
  stable_auto.
Qed.

Lemma stable_AnsibleWorkerThread_run self : stable_m (Q:=Q) (AnsibleWorkerThread_run self).
Proof.
  unfold AnsibleWorkerThread_run, traceback_print_exc.
  stable_auto;
    first [apply stable_client | apply stable_send_pipe_send | apply stable_getitem].
Qed.

Lemma stable_AnsibleWorkerProcess_run self : stable_m (Q:=Q) (AnsibleWorkerProcess_run self).
Proof.
  unfold AnsibleWorkerProcess_run, traceback_print_exc.
  stable_auto;
    first [apply stable_client | apply stable_send_pipe_send | apply stable_getitem].
Qed.

Lemma stable_evolves w w' : stable w w' -> evolves w w'.
Proof. intros (P & C & A & D). repeat split; auto. Qed.

(** One turn of the dispatch loop increments the counter at most once,
    and only from below the limit. *)
Lemma evolves_QueueThread_run_iteration w :
  evolves w (snd (QueueThread_run_iteration w)).
Proof.
  unfold_dispatch. unfold_monad. unfold evolves. simpl.
  destruct (queue_next (request_queue w)) as [[[| r] |] q']; simpl.
  - rewrite !count_event_snoc. simpl. repeat split; auto with lia.
  - destruct (lock_fault (env w) OpValue) as [e0 |]; simpl.
    { rewrite !count_event_snoc. simpl. repeat split; auto with lia. }
    destruct (counter w <? max_concurrent_ansible_processes (process_properties w))
      eqn:Hcmp; simpl.
    + apply Z.ltb_lt in Hcmp.
      destruct (lock_fault (env w) OpIncrement) as [e1 |]; simpl.
      { rewrite !count_event_snoc. simpl. repeat split; auto with lia. }
      destruct (is_threaded (process_properties w)); simpl;
        destruct (start_fault (env w)) as [e2 |]; simpl;
        rewrite !count_event_snoc; simpl; repeat split; auto with lia.
    + rewrite !count_event_snoc. simpl. repeat split; auto with lia.
  - rewrite !count_event_snoc. simpl. repeat split; auto with lia.
Qed.

Lemma stable_set_queue_thread_alive b w : stable w (set_queue_thread_alive b w).
Proof. by repeat split. Qed.

Lemma stable_set_responses_thread_alive b w :
  stable w (set_responses_thread_alive b w).
Proof. by repeat split. Qed.

Lemma stable_set_queue_thread_in_turn b w : stable w (set_queue_thread_in_turn b w).
Proof. by repeat split. Qed.

Lemma stable_set_responses_thread_in_turn b w :
  stable w (set_responses_thread_in_turn b w).
Proof. by repeat split. Qed.

Lemma stable_set_send_pipe p w : stable w (set_send_pipe p w).
Proof. by repeat split. Qed.

Lemma stable_set_workers ws w : stable w (set_workers ws w).
Proof. by repeat split. Qed.

Lemma evolves_stable w1 w2 w3 : evolves w1 w2 -> stable w2 w3 -> evolves w1 w3.
Proof.
  intros (P1 & A1 & D1 & C1) (P2 & C2 & A2 & D2).
  repeat split; [congruence | auto | congruence |].
  rewrite C2. exact C1.
Qed.

(** Every operation of the running system evolves the state. *)
Lemma evolves_perform (o : operation) w : evolves w (perform o w).
Proof.
  destruct o; simpl.
  - apply stable_evolves, stable_run_lifecycle.
  - apply stable_evolves, stable_queue_status.
  - apply stable_evolves, stable_shutdown.
  - apply stable_evolves, stable_sigint_handler.
  - unfold QueueThread_run_turn.
    destruct (queue_thread_alive w); [| apply stable_evolves, stable_refl].
    destruct (active w) eqn:Hact;
      [| apply stable_evolves, stable_set_queue_thread_alive].
    pose proof (evolves_QueueThread_run_iteration w) as Hiter.
    destruct (QueueThread_run_iteration w) as [[[|] | e | c] w']; simpl in Hiter;
      first [exact Hiter
            | eapply evolves_stable;
              [exact Hiter | apply stable_set_queue_thread_alive]].
  - unfold ResponsesThread_run_turn. apply stable_evolves.
    destruct (responses_thread_alive w); [| apply stable_refl].
    destruct (active w); [| apply stable_set_responses_thread_alive].
    destruct (recv_ready w); [| apply stable_refl].
    pose proof (stable_ResponsesThread_run_iteration w) as Hiter.
    destruct (ResponsesThread_run_iteration w) as [[[] | e | c] w']; simpl in Hiter;
      first [exact Hiter
            | eapply stable_trans;
              [exact Hiter | apply stable_set_responses_thread_alive]].
  - unfold worker_runs. apply stable_evolves.
    destruct (workers w !! i) as [worker |]; [| apply stable_refl].
    eapply stable_trans; [| unfold Worker_run; destruct (worker_kind worker);
      [apply stable_AnsibleWorkerThread_run | apply stable_AnsibleWorkerProcess_run]].
    by repeat split.
  - apply stable_evolves. by repeat split.
  - unfold QueueThread_run_enters. apply stable_evolves.
    destruct (queue_thread_alive w); [| apply stable_refl].
    destruct (queue_thread_in_turn w); [apply stable_refl |].
    destruct (active w);
      [apply stable_set_queue_thread_in_turn | apply stable_set_queue_thread_alive].
  - unfold QueueThread_run_completes.
    destruct (queue_thread_alive w); [| apply stable_evolves, stable_refl].
    destruct (queue_thread_in_turn w); [| apply stable_evolves, stable_refl].
    pose proof (evolves_QueueThread_run_iteration w) as Hiter.
    destruct (QueueThread_run_iteration w) as [[[|] | e | c] w']; simpl in Hiter;
      eapply evolves_stable; try exact Hiter;
      repeat first [apply stable_set_queue_thread_in_turn
                   | eapply stable_trans;
                     [apply stable_set_queue_thread_in_turn
                     | apply stable_set_queue_thread_alive]].
  - unfold ResponsesThread_run_enters. apply stable_evolves.
    destruct (responses_thread_alive w); [| apply stable_refl].
    destruct (responses_thread_in_turn w); [apply stable_refl |].
    destruct (active w);
      [apply stable_set_responses_thread_in_turn
      | apply stable_set_responses_thread_alive].
  - unfold ResponsesThread_run_completes. apply stable_evolves.
    destruct (responses_thread_alive w); [| apply stable_refl].
    destruct (responses_thread_in_turn w); [| apply stable_refl].
    destruct (recv_ready w); [| apply stable_refl].
    pose proof (stable_ResponsesThread_run_iteration w) as Hiter.
    destruct (ResponsesThread_run_iteration w) as [[[] | e | c] w']; simpl in Hiter;
      eapply stable_trans; try exact Hiter;
      repeat first [apply stable_set_responses_thread_in_turn
                   | eapply stable_trans;
                     [apply stable_set_responses_thread_in_turn
                     | apply stable_set_responses_thread_alive]].
  - unfold forked_worker_runs. apply stable_evolves.
    destruct (workers w !! i) as [worker |]; [| apply stable_refl].
    destruct (worker_kind worker); [apply stable_refl |].
    eapply stable_trans; [| apply stable_set_send_pipe].
    eapply stable_trans; [| apply stable_AnsibleWorkerProcess_run].
    by repeat split.
Qed.

(** No operation raises the flag. *)
Lemma perform_all_keeps_inactive (os : list operation) w :
  active w = false -> active (perform_all os w) = false.
Proof.
  revert w. induction os as [| o os IH]; intros w Hact; [done |].
  simpl. apply IH. by apply (evolves_perform o w).
Qed.

(** C9. [shutdown] is idempotent and one-way.  From any state, a first
    [shutdown] returns and leaves the flag false; after any operations that
    follow, the flag is still false, and a second [shutdown] returns as
    well, publishes nothing and leaves the flag false. *)
Theorem shutdown_idempotent_one_way w (os : list operation) :
  let w1 := snd (shutdown w) in
  let w2 := perform_all os w1 in
  let w3 := snd (shutdown w2) in
  fst (shutdown w) = Ok tt /\
  active w1 = false /\
  active w2 = false /\
  fst (shutdown w2) = Ok tt /\
  extends w2 w3 /\
  published (events_since w2 w3) = [] /\
  events_since w2 w3 = [EvQueueShutdown; EvPipeClose] /\
  active w3 = false.
Proof.
  intros w1 w2 w3.
  assert (Hshut : forall u : World Q,
            fst (shutdown u) = Ok tt /\
            active (snd (shutdown u)) = false /\
            extends u (snd (shutdown u)) /\
            events_since u (snd (shutdown u)) = [EvQueueShutdown; EvPipeClose]).
  { intros u. unfold shutdown, request_queue_shutdown, send_pipe_close.
    unfold_monad. simpl. by since_trace. }
  destruct (Hshut w) as (Hr1 & Ha1 & _).
  destruct (Hshut w2) as (Hr3 & Ha3 & Hext3 & Hev3).
  subst w1 w2 w3. repeat split; try done.
  - by apply perform_all_keeps_inactive.
  - by rewrite Hev3.
Qed.

(** *** The counter *)

Lemma c_int_in_range (v : Z) : - 2 ^ 31 <= v <= INT_MAX -> c_int v = v.
Proof.
  unfold c_int, INT_MAX. intros Hv.
  rewrite Z.mod_small by lia. lia.
Qed.

Lemma perform_counter_ok (o : operation) w :
  counter_ok w -> counter_ok (perform o w) /\ counter w <= counter (perform o w).
Proof.
  intros (Hlimit & Hrange & Hdecr).
  destruct (evolves_perform o w) as (P & _ & D & C).
  unfold counter_ok. rewrite P, D.
  destruct C as [-> | [Hlt ->]]; [by repeat split; try lia |].
  rewrite c_int_in_range by (unfold INT_MAX in *; lia).
  repeat split; lia.
Qed.

Lemma perform_all_counter_ok (os : list operation) w :
  counter_ok w -> counter_ok (perform_all os w).
Proof.
  revert w. induction os as [| o os IH]; intros w Hok; [done |].
  simpl. apply IH. by apply perform_counter_ok.
Qed.

Lemma perform_all_never_decrements (os : list operation) w :
  count_event EvCounterDecrement (trace (perform_all os w))
    = count_event EvCounterDecrement (trace w).
Proof.
  revert w. induction os as [| o os IH]; intros w; [done |].
  simpl. rewrite IH. by destruct (evolves_perform o w) as (_ & _ & D & _).
Qed.

(** What the constructor leaves behind. *)
Lemma init_state (configuration : ProcessProperties) (queue : Q)
    (environment : Env) (previous : SigHandler) (w0 : World Q) :
  AnsibleProcessorService__init__ configuration queue environment true previous
    = Ok w0 ->
  process_properties w0 = configuration /\
  active w0 = true /\
  counter w0 = 0 /\
  trace w0 = [EvSignalSIGCHLD SIG_IGN].
Proof.
  unfold AnsibleProcessorService__init__. simpl.
  destruct (first_fault (init_fault environment) init_calls); [done |].
  destruct (start_fault environment); [done |].
  destruct (use_pool configuration); [done |].
  by intros [= <-].
Qed.

(** C6, for a limit that a C [int] can hold.  Take a service that was
    constructed.  Its counter starts at 0.  After any sequence of
    operations (submissions, status reads, shutdowns, interrupts, turns
    of the two loops whole or in two halves, runs of workers, changes of
    the environment), [Counter.decrement] has never been called, and one
    more operation leaves the counter as it is or increments it once.
    When the limit on concurrent workers is one a C [int] can hold (the
    counter is a C [int]), the counter is never negative and one more
    operation does not lower it; with a larger limit the increment at
    the largest C [int] wraps. *)
Theorem counter_never_decreases (configuration : ProcessProperties) (queue : Q)
    (environment : Env) (previous : SigHandler) (w0 : World Q)
    (os : list operation) (o : operation) :
  AnsibleProcessorService__init__ configuration queue environment true previous
    = Ok w0 ->
  let w := perform_all os w0 in
  counter w0 = 0 /\
  count_event EvCounterDecrement (trace (perform o w)) = 0%nat /\
  (counter (perform o w) = counter w \/
   counter (perform o w) = c_int (counter w + 1)) /\
  (max_concurrent_ansible_processes configuration <= INT_MAX ->
   0 <= counter w /\ counter w <= counter (perform o w)).
Proof.
  intros Hinit w.
  destruct (init_state _ _ _ _ _ Hinit) as (Hprops & _ & Hzero & Htrace).
  assert (Hdecr0 : count_event EvCounterDecrement (trace w0) = 0%nat)
    by (by rewrite Htrace).
  assert (Hdecr : count_event EvCounterDecrement (trace w) = 0%nat)
    by (subst w; by rewrite perform_all_never_decrements).
  destruct (evolves_perform o w) as (_ & _ & D & C).
  repeat split.
  - done.
  - by rewrite D.
  - destruct C as [C | [_ C]]; auto.
  - assert (Hok : counter_ok w).
    { subst w. apply perform_all_counter_ok. unfold counter_ok.
      rewrite Hprops, Hzero, Hdecr0. unfold INT_MAX. repeat split; done || lia. }
    destruct Hok as (_ & Hrange & _). lia.
  - assert (Hok : counter_ok w).
    { subst w. apply perform_all_counter_ok. unfold counter_ok.
      rewrite Hprops, Hzero, Hdecr0. unfold INT_MAX. repeat split; done || lia. }
    by destruct (perform_counter_ok o w Hok) as [_ Hmono].
Qed.

(** * Further properties of the code *)

(** ** Frames: what a method leaves alone *)

Section Frame.

Context {A : Type} (proj : World Q -> A) (P : event -> bool).

Lemma quiet_refl w : quiet proj P w w.
Proof. by split. Qed.

Lemma quiet_trans w1 w2 w3 :
  quiet proj P w1 w2 -> quiet proj P w2 w3 -> quiet proj P w1 w3.
Proof. intros [S1 T1] [S2 T2]. split; congruence. Qed.

Lemma filter_snoc_false (evs : list event) (ev : event) :
  P ev = false -> filter P (evs ++ [ev]) = filter P evs.
Proof.
  intros HP. rewrite filter_app, filter_cons_False, filter_nil.
  - apply app_nil_r.
  - rewrite HP. intros [].
Qed.

Lemma quiet_ret {B} (b : B) : quiet_m (Q:=Q) proj P (mret b).
Proof. intros w. apply quiet_refl. Qed.

Lemma quiet_raise {B} (e : exn) : quiet_m (Q:=Q) proj P (raise (A:=B) e).
Proof. intros w. apply quiet_refl. Qed.

Lemma quiet_exit {B} (c : Z) : quiet_m (Q:=Q) proj P (exit (A:=B) c).
Proof. intros w. apply quiet_refl. Qed.

Lemma quiet_gets {B} (f : World Q -> B) : quiet_m (Q:=Q) proj P (gets f).
Proof. intros w. apply quiet_refl. Qed.

Lemma quiet_modify (f : World Q -> World Q) :
  (forall w, proj (f w) = proj w /\ trace (f w) = trace w) ->
  quiet_m (Q:=Q) proj P (modify f).
Proof.
  intros Hf w. destruct (Hf w) as [Hp Ht]. split; simpl; [done |].
  by rewrite Ht.
Qed.

Lemma quiet_emit (ev : event) :
  P ev = false ->
  (forall w evs,
     proj (mkWorld (process_properties w) (env w) (active w) (counter w)
             (request_queue w) (send_pipe w) (sigchld_handler w) (workers w)
             (queue_thread_alive w) (responses_thread_alive w) evs (log w)
             (queue_thread_in_turn w) (responses_thread_in_turn w))
       = proj w) ->
  quiet_m (Q:=Q) proj P (emit ev).
Proof.
  intros HP Hproj w. split; simpl; [apply Hproj |].
  by apply filter_snoc_false.
Qed.

Lemma quiet_logger (lvl : LogLevel) (template : string) :
  (forall w l,
     proj (mkWorld (process_properties w) (env w) (active w) (counter w)
             (request_queue w) (send_pipe w) (sigchld_handler w) (workers w)
             (queue_thread_alive w) (responses_thread_alive w) (trace w) l
             (queue_thread_in_turn w) (responses_thread_in_turn w))
       = proj w) ->
  quiet_m (Q:=Q) proj P (logger lvl template).
Proof. intros Hproj w. split; simpl; [apply Hproj | done]. Qed.

Lemma quiet_bind {B C} (m : M Q B) (f : B -> M Q C) :
  quiet_m proj P m -> (forall b, quiet_m proj P (f b)) ->
  quiet_m proj P (m ≫= f).
Proof.
  intros Hm Hf w. unfold mbind, M_bind. specialize (Hm w).
  destruct (m w) as [[b | e | c] w1]; simpl in *; [| done | done].
  eapply quiet_trans; [exact Hm | apply Hf].
Qed.

Lemma quiet_try_except {B} (body : M Q B) (handler : exn -> M Q B) :
  quiet_m proj P body -> (forall e, quiet_m proj P (handler e)) ->
  quiet_m proj P (try_except body handler).
Proof.
  intros Hb Hh w. unfold try_except. specialize (Hb w).
  destruct (body w) as [[b | e | c] w1]; simpl in *; [done | | done].
  eapply quiet_trans; [exact Hb | apply Hh].
Qed.

Lemma quiet_try_except_EOFError {B} (body handler : M Q B) :
  quiet_m proj P body -> quiet_m proj P handler ->
  quiet_m proj P (try_except_EOFError body handler).
Proof.
  intros Hb Hh w. unfold try_except_EOFError. specialize (Hb w).
  destruct (body w) as [[b | e | c] w1]; simpl in *; [done | | done].
  case_bool_decide; [| done].
  eapply quiet_trans; [exact Hb | apply Hh].
Qed.

Lemma quiet_try_finally {B} (body : M Q B) (final : M Q unit) :
  quiet_m proj P body -> quiet_m proj P final ->
  quiet_m proj P (try_finally body final).
Proof.
  intros Hb Hf w. unfold try_finally. specialize (Hb w).
  destruct (body w) as [o w1]. specialize (Hf w1).
  destruct (final w1) as [[b | e | c] w2]; simpl in *;
    eapply quiet_trans; eassumption.
Qed.

Lemma quiet_with_lock {B} (op : CounterOp) (body : M Q B) :
  quiet_m proj P body -> quiet_m proj P (with_lock op body).
Proof.
  intros Hb w. unfold with_lock.
  destruct (lock_fault (env w) op); [apply quiet_refl | apply Hb].
Qed.

End Frame.

(** Taking a method apart for a frame: every call it makes must fail [P]
    and every change of state must leave [proj] alone, both settled by
    computation. *)
Ltac quiet_step :=
  lazymatch goal with
  | |- quiet_m _ _ (mbind _ _) => apply quiet_bind; [| intros ?]
  | |- quiet_m _ _ (mret _) => apply quiet_ret
  | |- quiet_m _ _ (raise _) => apply quiet_raise
  | |- quiet_m _ _ (exit _) => apply quiet_exit
  | |- quiet_m _ _ (gets _) => apply quiet_gets
  | |- quiet_m _ _ (logger _ _) => apply quiet_logger; reflexivity
  | |- quiet_m _ _ (emit _) => apply quiet_emit; reflexivity
  | |- quiet_m _ _ (try_except _ _) => apply quiet_try_except; [| intros ?]
  | |- quiet_m _ _ (try_except_EOFError _ _) => apply quiet_try_except_EOFError
  | |- quiet_m _ _ (try_finally _ _) => apply quiet_try_finally
  | |- quiet_m _ _ (with_lock _ _) => apply quiet_with_lock
  | |- quiet_m _ _ (modify _) => apply quiet_modify; intros ?; split; reflexivity
  | |- quiet_m _ _ (if ?b then _ else _) => destruct b
  | |- quiet_m _ _ (match ?x with _ => _ end) => destruct x
  | |- quiet_m _ _ (fun w => (_, w)) => intros ?; apply quiet_refl
  end.

Ltac quiet_auto := repeat quiet_step.

(** ** Submission *)

(** X1. A well-formed request submitted to an active service whose queue
    holds fewer than [max_queue_size] entries is enqueued: [run_lifecycle]
    returns, its calls are the two reads of the queue size and one [put]
    of the request, the queue is the one [put] leaves, and nothing is
    published. *)
Theorem run_lifecycle_enqueues request w :
  is_Some (request !! "request_id") ->
  is_Some (request !! "lifecycle_name") ->
  is_Some (request !! "lifecycle_path") ->
  active w = true ->
  queue_size (request_queue w) < max_queue_size (process_properties w) ->
  let w' := snd (run_lifecycle request w) in
  fst (run_lifecycle request w) = Ok tt /\
  extends w w' /\
  events_since w w' = [EvQueueSize; EvQueueSize; EvQueuePut (Req request)] /\
  published (events_since w w') = [] /\
  request_queue w' = queue_put (Req request) (request_queue w).
Proof.
  intros H1 H2 H3 Hact Hroom w'. subst w'.
  rewrite (run_lifecycle_validated _ _ H1 H2 H3).
  unfold request_queue_size, request_queue_put.
  unfold_monad. simpl. rewrite Hact. simpl.
  apply Z.leb_gt in Hroom. rewrite Hroom. simpl.
  by since_trace.
Qed.

(** X2. Whatever the state, a well-formed submission returns and is
    either enqueued or answered, never both and never neither: when the
    service is active and the queue holds fewer than [max_queue_size]
    entries there is one [put] of the request and no publication,
    otherwise there is no [put] and one publication, a FAILED result that
    carries the request's id. *)
Theorem run_lifecycle_enqueues_or_rejects request (rid : value) w :
  request !! "request_id" = Some rid ->
  is_Some (request !! "lifecycle_name") ->
  is_Some (request !! "lifecycle_path") ->
  let w' := snd (run_lifecycle request w) in
  let admitted :=
    active w
    && (queue_size (request_queue w) <? max_queue_size (process_properties w)) in
  fst (run_lifecycle request w) = Ok tt /\
  extends w w' /\
  filter is_put (events_since w w')
    = (if admitted then [EvQueuePut (Req request)] else []) /\
  length (published (events_since w w')) = (if admitted then 0 else 1)%nat /\
  Forall (fun le => request_id le = rid /\ status le = STATUS_FAILED)
    (published (events_since w w')).
Proof.
  intros Hrid H2 H3 w' admitted. subst w' admitted.
  rewrite (run_lifecycle_validated _ _ (mk_is_Some _ _ Hrid) H2 H3).
  unfold request_queue_size, request_queue_put, getitem,
    send_lifecycle_execution, insufficient_capacity_result.
  unfold_monad. simpl. rewrite Hrid.
  destruct (active w); simpl.
  - rewrite Z.leb_antisym.
    destruct (queue_size (request_queue w)
              <? max_queue_size (process_properties w)); simpl;
      since_trace; repeat split; by repeat constructor.
  - since_trace. repeat split; by repeat constructor.
Qed.

(** X3. [run_lifecycle] only talks to the queue and to the messaging
    service: however it ends, the active flag, the counter, the result
    pipe and the started workers are as before, and it makes no call on
    the counter, the pipe or the client and starts no worker. *)
Theorem run_lifecycle_frame request w :
  let w' := snd (run_lifecycle request w) in
  (active w', counter w', send_pipe w', workers w')
    = (active w, counter w, send_pipe w, workers w) /\
  filter (fun ev => is_counter_call ev || is_pipe_call ev || is_client_call ev
                    || is_start ev) (trace w')
    = filter (fun ev => is_counter_call ev || is_pipe_call ev
                        || is_client_call ev || is_start ev) (trace w).
Proof.
  revert w.
  change (quiet_m (fun w => (active w, counter w, send_pipe w, workers w))
            (fun ev => is_counter_call ev || is_pipe_call ev
                       || is_client_call ev || is_start ev)
            (run_lifecycle request)).
  unfold run_lifecycle, request_queue_size, request_queue_put, getitem,
    send_lifecycle_execution.
  quiet_auto.
Qed.

(** ** Construction *)

Lemma first_fault_none (fault : InitCall -> option exn) :
  first_fault fault init_calls = None -> forall c, fault c = None.
Proof.
  unfold first_fault, init_calls. simpl. intros Hnone c.
  destruct (fault InitGetPropertyGroup) eqn:E1; [done |].
  destruct (fault InitCounter) eqn:E2; [done |].
  destruct (fault InitPipe) eqn:E3; [done |].
  destruct (fault InitSignalSIGCHLD) eqn:E4; [done |].
  destruct (fault InitSignalSIGINT) eqn:E5; [done |].
  by destruct c.
Qed.

(** X4. What the constructor decides itself.  Without the
    [messaging_service] keyword it raises the [ValueError] of its first
    statement, whatever else holds.  With [use_pool] it never returns a
    service: [self.queue_thread] is read in its last statement and
    assigned only without the pool.  When it returns, the keyword was
    given, [use_pool] is off, none of its calls failed and no start was
    refused, and the service is active, its counter is 0, its pipe is
    open and empty, no worker is started, both loops are at their test,
    and it holds the queue and the configuration it was given. *)
Theorem init_returns_only_without_pool (configuration : ProcessProperties)
    (queue : Q) (environment : Env) (messaging_service : bool)
    (previous : SigHandler) :
  let result :=
    AnsibleProcessorService__init__ configuration queue environment
      messaging_service previous in
  (messaging_service = false ->
   result = Raise (mkExn ValueError "messaging_service argument not provided")) /\
  (use_pool configuration = true -> forall w0, result <> Ok w0) /\
  (forall w0, result = Ok w0 ->
     (messaging_service = true /\ use_pool configuration = false /\
      (forall c, init_fault environment c = None) /\
      start_fault environment = None) /\
     active w0 = true /\ counter w0 = 0 /\ send_pipe w0 = mkPipe false [] /\
     workers w0 = [] /\ request_queue w0 = queue /\
     process_properties w0 = configuration /\
     loops w0 = (true, false, true, false)).
Proof.
  intros result. subst result. unfold AnsibleProcessorService__init__.
  split; [by intros -> |]. split.
  - intros -> w0.
    destruct messaging_service; simpl; [| done].
    destruct (first_fault (init_fault environment) init_calls); [done |].
    by destruct (start_fault environment).
  - intros w0 Hw0.
    destruct messaging_service; simpl in Hw0; [| done].
    destruct (first_fault (init_fault environment) init_calls) eqn:Hcalls;
      [done |].
    destruct (start_fault environment); [done |].
    destruct (use_pool configuration); [done |].
    injection Hw0 as <-. repeat split; try done.
    by apply first_fault_none.
Qed.

(** ** The counter *)

Lemma c_int_range (v : Z) : - 2 ^ 31 <= c_int v <= INT_MAX.
Proof.
  unfold c_int, INT_MAX.
  pose proof (Z.mod_pos_bound (v + 2 ^ 31) (2 ^ 32) ltac:(lia)). lia.
Qed.

(** X5. The counter is a C [int]: whatever it held, after [increment] or
    [decrement] it holds a value between -2^31 and 2^31 - 1.  From a value
    in that range [increment] adds one, except at 2^31 - 1, where it wraps
    to -2^31; [decrement] subtracts one, except at -2^31, where it wraps
    to 2^31 - 1. *)
Theorem Counter_wraps w :
  lock_fault (env w) OpIncrement = None ->
  lock_fault (env w) OpDecrement = None ->
  let up := counter (snd (Counter_increment w)) in
  let down := counter (snd (Counter_decrement w)) in
  (- 2 ^ 31 <= up <= INT_MAX) /\
  (- 2 ^ 31 <= down <= INT_MAX) /\
  (- 2 ^ 31 <= counter w <= INT_MAX ->
   up = (if counter w =? INT_MAX then - 2 ^ 31 else counter w + 1) /\
   down = (if counter w =? - 2 ^ 31 then INT_MAX else counter w - 1)).
Proof.
  intros Hup Hdown up down. subst up down.
  unfold Counter_increment, Counter_decrement, with_lock. unfold_monad. simpl.
  rewrite Hup, Hdown. simpl.
  split; [apply c_int_range |]. split; [apply c_int_range |].
  intros Hrange. unfold INT_MAX in *. split.
  - destruct (Z.eqb_spec (counter w) 2147483647) as [-> | Hne]; [done |].
    apply c_int_in_range. unfold INT_MAX. lia.
  - destruct (Z.eqb_spec (counter w) (- 2 ^ 31)) as [-> | Hne]; [done |].
    apply c_int_in_range. unfold INT_MAX. lia.
Qed.

(** X6. [increment] and [decrement] undo each other, in either order and
    also across the wrap: from a value a C [int] can hold, one after the
    other gives the value back; the two calls are the only ones made. *)
Theorem Counter_increment_decrement w :
  lock_fault (env w) OpIncrement = None ->
  lock_fault (env w) OpDecrement = None ->
  - 2 ^ 31 <= counter w <= INT_MAX ->
  counter (snd ((Counter_increment;; Counter_decrement) w)) = counter w /\
  counter (snd ((Counter_decrement;; Counter_increment) w)) = counter w /\
  events_since w (snd ((Counter_increment;; Counter_decrement) w))
    = [EvCounterIncrement; EvCounterDecrement].
Proof.
  intros Hup Hdown Hrange.
  unfold Counter_increment, Counter_decrement, with_lock. unfold_monad. simpl.
  rewrite Hup, Hdown. simpl. rewrite Hup, Hdown. simpl.
  since_trace.
  assert (Hud : c_int (c_int (counter w + 1) - 1) = counter w).
  { destruct (Z.eq_dec (counter w) INT_MAX) as [-> | Hne]; [done |].
    rewrite (c_int_in_range (counter w + 1)) by (unfold INT_MAX in *; lia).
    rewrite Z.add_simpl_r. by apply c_int_in_range. }
  assert (Hdu : c_int (c_int (counter w - 1) + 1) = counter w).
  { destruct (Z.eq_dec (counter w) (- 2 ^ 31)) as [-> | Hne]; [done |].
    rewrite (c_int_in_range (counter w - 1)) by (unfold INT_MAX in *; lia).
    rewrite Z.sub_add. by apply c_int_in_range. }
  by repeat split.
Qed.

(** ** More on the worker isolates *)

(** X7. A worker of either variant that holds a request, whose call of
    the client returns a result, writes that result to the pipe, as it
    is and once, and returns; it publishes nothing itself.  The worker's
    end of the pipe is open. *)
Theorem worker_forwards_response (self : Worker) request
    (resp : LifecycleExecution) w :
  worker_request self = Some request ->
  run_lifecycle_playbook (env w) request = Ok (Some resp) ->
  pipe_closed (send_pipe w) = false ->
  forall run : Worker -> M Q unit,
    run = AnsibleWorkerThread_run \/ run = AnsibleWorkerProcess_run ->
    fst (run self w) = Ok tt /\
    extends w (snd (run self w)) /\
    written (events_since w (snd (run self w))) = [Some resp] /\
    published (events_since w (snd (run self w))) = [] /\
    pipe_buffer (send_pipe (snd (run self w)))
      = pipe_buffer (send_pipe w) ++ [Some resp].
Proof.
  intros Hreq Hresp Hopen run [-> | ->].
  - unfold AnsibleWorkerThread_run, ansible_client_run_lifecycle_playbook,
      send_pipe_send.
    rewrite Hreq. unfold_monad. simpl. rewrite Hresp. simpl.
    rewrite Hopen. simpl. by since_trace.
  - unfold AnsibleWorkerProcess_run, ansible_client_run_lifecycle_playbook,
      send_pipe_send.
    rewrite Hreq. unfold_monad. simpl. rewrite Hresp. simpl.
    rewrite Hopen. simpl. by since_trace.
Qed.

(** X8. A worker of either variant that holds no request returns without
    calling the client and without a call on the pipe. *)
Theorem worker_without_request (self : Worker) w :
  worker_request self = None ->
  forall run : Worker -> M Q unit,
    run = AnsibleWorkerThread_run \/ run = AnsibleWorkerProcess_run ->
    fst (run self w) = Ok tt /\
    extends w (snd (run self w)) /\
    filter (fun ev => is_client_call ev || is_pipe_call ev)
      (events_since w (snd (run self w))) = [] /\
    send_pipe (snd (run self w)) = send_pipe w /\
    log (snd (run self w)) = log w.
Proof.
  intros Hreq run [-> | ->].
  - unfold AnsibleWorkerThread_run. rewrite Hreq. unfold_monad. simpl.
    unfold extends, events_since. simpl. rewrite drop_all.
    by rewrite app_nil_r.
  - unfold AnsibleWorkerProcess_run. rewrite Hreq. unfold_monad. simpl.
    by since_trace.
Qed.

(** X9. A worker whose end of the pipe is closed cannot report.  When
    the client returns a result or raises, the [send] in the handler
    raises [OSError], which leaves [run]; nothing reaches the pipe. *)
Theorem worker_on_closed_pipe (self : Worker) request (rid : value) w :
  worker_request self = Some request ->
  request !! "request_id" = Some rid ->
  pipe_closed (send_pipe w) = true ->
  (exists resp, run_lifecycle_playbook (env w) request = Ok (Some resp)) \/
  (exists e, run_lifecycle_playbook (env w) request = Raise e) ->
  forall run : Worker -> M Q unit,
    run = AnsibleWorkerThread_run \/ run = AnsibleWorkerProcess_run ->
    fst (run self w) = Raise (mkExn OSError "handle is closed") /\
    send_pipe (snd (run self w)) = send_pipe w.
Proof.
  intros Hreq Hrid Hclosed Hclient run Hrun.
  destruct Hclient as [[resp Hc] | [e Hc]]; destruct Hrun as [-> | ->];
    unfold AnsibleWorkerThread_run, AnsibleWorkerProcess_run,
      ansible_client_run_lifecycle_playbook, getitem, send_pipe_send;
    rewrite Hreq, Hrid; unfold_monad; simpl; rewrite Hc; simpl;
    rewrite Hclosed; simpl; rewrite ?Hclosed; simpl; done.
Qed.

(** X10. A worker whose request has no [request_id] cannot report an
    exception of the client: building the result raises [KeyError], which
    leaves [run], and there is no call on the pipe. *)
Theorem worker_without_request_id (self : Worker) request (e : exn) w :
  worker_request self = Some request ->
  request !! "request_id" = None ->
  run_lifecycle_playbook (env w) request = Raise e ->
  forall run : Worker -> M Q unit,
    run = AnsibleWorkerThread_run \/ run = AnsibleWorkerProcess_run ->
    fst (run self w) = Raise (mkExn KeyError "'request_id'") /\
    extends w (snd (run self w)) /\
    written (events_since w (snd (run self w))) = [] /\
    send_pipe (snd (run self w)) = send_pipe w.
Proof.
  intros Hreq Hrid Hraise run [-> | ->].
  - unfold AnsibleWorkerThread_run, ansible_client_run_lifecycle_playbook,
      getitem.
    rewrite Hreq, Hrid. unfold_monad. simpl. rewrite Hraise. simpl.
    by since_trace.
  - unfold AnsibleWorkerProcess_run, ansible_client_run_lifecycle_playbook,
      getitem.
    rewrite Hreq, Hrid. unfold_monad. simpl. rewrite Hraise. simpl.
    by since_trace.
Qed.

(** X11. A worker only talks to the client and to the pipe: however its
    run ends, the active flag, the counter, the request queue and the
    started workers are as before, and it makes no call on the queue, the
    counter or the messaging service and starts no worker. *)
Theorem worker_frame (self : Worker) w :
  forall run : Worker -> M Q unit,
    run = AnsibleWorkerThread_run \/ run = AnsibleWorkerProcess_run ->
    let w' := snd (run self w) in
    (active w', counter w', request_queue w', workers w')
      = (active w, counter w, request_queue w, workers w) /\
    filter (fun ev => is_queue_call ev || is_counter_call ev || is_publish ev
                      || is_start ev) (trace w')
      = filter (fun ev => is_queue_call ev || is_counter_call ev
                          || is_publish ev || is_start ev) (trace w).
Proof.
  intros run Hrun. revert w.
  change (quiet_m (fun w => (active w, counter w, request_queue w, workers w))
            (fun ev => is_queue_call ev || is_counter_call ev || is_publish ev
                       || is_start ev)
            (run self)).
  destruct Hrun as [-> | ->];
    unfold AnsibleWorkerThread_run, AnsibleWorkerProcess_run,
      ansible_client_run_lifecycle_playbook, traceback_print_exc, getitem,
      send_pipe_send;
    quiet_auto.
Qed.

(** ** More on the dispatch loop *)

(** X12. The sentinel ends the dispatch thread.  The turn that takes it
    from the queue acknowledges it and does nothing else: no read of the
    counter, no worker, no [put].  After it the thread is over: further
    turns, however many, change nothing. *)
Theorem dispatch_ends_at_sentinel (q' : Q) w (n : nat) :
  queue_thread_alive w = true ->
  active w = true ->
  queue_next (request_queue w) = (Some SHUTDOWN_MESSAGE, q') ->
  let w1 := perform DispatchLoopTurn w in
  fst (QueueThread_run_iteration w) = Ok Break /\
  extends w w1 /\
  events_since w w1 = [EvQueueNext; EvQueueTaskDone] /\
  request_queue w1 = queue_task_done q' /\
  (counter w1, workers w1) = (counter w, workers w) /\
  queue_thread_alive w1 = false /\
  perform_all (replicate n DispatchLoopTurn) w1 = w1.
Proof.
  intros Halive Hact Hnext w1. subst w1. simpl.
  unfold QueueThread_run_turn. rewrite Halive, Hact.
  unfold_dispatch. unfold_monad. simpl. rewrite Hnext. simpl.
  since_trace. repeat split; try done.
  induction n as [| n IH]; [done |].
  simpl. unfold QueueThread_run_turn at 1. simpl. exact IH.
Qed.

(** X13. When reading the counter raises, the request that was taken
    from the queue is lost: the turn swallows the exception and goes on,
    but it neither acknowledges the request nor hands it back, and no
    worker is started for it. *)
Theorem dispatch_loses_request_on_counter_failure (r : Request) (q' : Q)
    (e : exn) w :
  queue_next (request_queue w) = (Some (Req r), q') ->
  lock_fault (env w) OpValue = Some e ->
  let w' := snd (QueueThread_run_iteration w) in
  fst (QueueThread_run_iteration w) = Ok Continue /\
  extends w w' /\
  events_since w w' = [EvQueueNext; EvCounterValue] /\
  request_queue w' = q' /\
  (counter w', workers w') = (counter w, workers w) /\
  log w' = log w ++ [(TRACEBACK, ""); (ERROR, "Unexpected exception {0}")].
Proof.
  intros Hnext Hvalue w'. subst w'.
  unfold_dispatch. unfold_monad. simpl. rewrite Hnext. simpl.
  rewrite Hvalue. simpl. by since_trace.
Qed.

(** Only the body of the dispatch loop starts workers. *)
Lemma others_never_start (o : operation) w :
  o <> DispatchLoopTurn ->
  o <> DispatchLoopCompletes ->
  filter is_start (trace (perform o w)) = filter is_start (trace w).
Proof.
  intros Ho Ho'.
  assert (Hrun : forall worker : Worker,
            quiet_m (Q:=Q) (fun _ => tt) is_start (Worker_run worker)).
  { intros worker. unfold Worker_run, AnsibleWorkerThread_run,
      AnsibleWorkerProcess_run, ansible_client_run_lifecycle_playbook,
      traceback_print_exc, getitem, send_pipe_send.
    quiet_auto. }
  assert (Hproc : forall worker : Worker,
            quiet_m (Q:=Q) (fun _ => tt) is_start
              (AnsibleWorkerProcess_run worker)).
  { intros worker. unfold AnsibleWorkerProcess_run,
      ansible_client_run_lifecycle_playbook, traceback_print_exc, getitem,
      send_pipe_send.
    quiet_auto. }
  assert (Hshut : quiet_m (Q:=Q) (fun _ => tt) is_start shutdown).
  { unfold shutdown, request_queue_shutdown, send_pipe_close. quiet_auto. }
  assert (Hagg : quiet_m (Q:=Q) (fun _ => tt) is_start
                   ResponsesThread_run_iteration).
  { unfold ResponsesThread_run_iteration, recv_pipe_recv,
      send_lifecycle_execution. quiet_auto. }
  destruct o; simpl; try done.
  - assert (Hq : quiet_m (Q:=Q) (fun _ => tt) is_start (run_lifecycle request)).
    { unfold run_lifecycle, request_queue_size, request_queue_put, getitem,
        send_lifecycle_execution. quiet_auto. }
    apply Hq.
  - assert (Hq : quiet_m (Q:=Q) (fun _ => tt) is_start queue_status).
    { unfold queue_status, request_queue_queue_status. quiet_auto. }
    apply Hq.
  - apply Hshut.
  - assert (Hq : quiet_m (Q:=Q) (fun _ => tt) is_start sigint_handler).
    { unfold sigint_handler. quiet_auto. apply Hshut. }
    apply Hq.
  - unfold ResponsesThread_run_turn.
    destruct (responses_thread_alive w); [| done].
    destruct (active w); [| done].
    destruct (recv_ready w); [| done].
    assert (Hq : quiet_m (Q:=Q) (fun _ => tt) is_start
                   ResponsesThread_run_iteration).
    { unfold ResponsesThread_run_iteration, recv_pipe_recv,
        send_lifecycle_execution. quiet_auto. }
    specialize (Hq w). destruct Hq as [_ Hq].
    by destruct (ResponsesThread_run_iteration w) as [[[] | e | c] w'].
  - unfold worker_runs. destruct (workers w !! i) as [worker |]; [| done].
    by destruct (Hrun worker (set_workers (delete i (workers w)) w)) as [_ Hq].
  - unfold QueueThread_run_enters.
    destruct (queue_thread_alive w); [| done].
    destruct (queue_thread_in_turn w); [done |].
    by destruct (active w).
  - unfold ResponsesThread_run_enters.
    destruct (responses_thread_alive w); [| done].
    destruct (responses_thread_in_turn w); [done |].
    by destruct (active w).
  - unfold ResponsesThread_run_completes.
    destruct (responses_thread_alive w); [| done].
    destruct (responses_thread_in_turn w); [| done].
    destruct (recv_ready w); [| done].
    destruct (Hagg w) as [_ Hq].
    by destruct (ResponsesThread_run_iteration w) as [[[] | e | c] w'].
  - unfold forked_worker_runs. destruct (workers w !! i) as [worker |]; [| done].
    destruct (worker_kind worker); [done |]. simpl.
    by destruct (Hproc worker
                   (set_send_pipe (mkPipe false (pipe_buffer (send_pipe w)))
                      (set_workers (delete i (workers w)) w))) as [_ Hq].
Qed.

(** The body of the dispatch loop starts at most one worker, and only
    together with an increment of the counter from below the limit. *)
Lemma iteration_starts_with_increment w :
  filter is_start (trace (snd (QueueThread_run_iteration w)))
    = filter is_start (trace w) \/
  (exists worker,
     filter is_start (trace (snd (QueueThread_run_iteration w)))
       = filter is_start (trace w) ++ [EvWorkerStart worker]) /\
  counter w < max_concurrent_ansible_processes (process_properties w) /\
  counter (snd (QueueThread_run_iteration w)) = c_int (counter w + 1).
Proof.
  unfold_dispatch. unfold_monad. simpl.
  destruct (queue_next (request_queue w)) as [[[| r] |] q']; simpl;
    rewrite ?filter_snoc_false by done; try (by left).
  destruct (lock_fault (env w) OpValue) as [e0 |]; simpl;
    rewrite ?filter_snoc_false by done; [by left |].
  destruct (counter w <? max_concurrent_ansible_processes (process_properties w))
    eqn:Hcmp; simpl; rewrite ?filter_snoc_false by done; [| by left].
  apply Z.ltb_lt in Hcmp.
  destruct (lock_fault (env w) OpIncrement) as [e1 |]; simpl;
    rewrite ?filter_snoc_false by done; [by left |].
  right.
  destruct (is_threaded (process_properties w)); simpl;
    destruct (start_fault (env w)) as [e2 |]; simpl;
    rewrite filter_snoc_false by done;
    rewrite filter_app; simpl;
    rewrite ?filter_snoc_false by done;
    (split; [eexists; reflexivity | done]).
Qed.

Lemma dispatch_starts_with_increment (o : operation) w :
  o = DispatchLoopTurn \/ o = DispatchLoopCompletes ->
  filter is_start (trace (perform o w)) = filter is_start (trace w) \/
  (exists worker,
     filter is_start (trace (perform o w))
       = filter is_start (trace w) ++ [EvWorkerStart worker]) /\
  counter w < max_concurrent_ansible_processes (process_properties w) /\
  counter (perform o w) = c_int (counter w + 1).
Proof.
  pose proof (iteration_starts_with_increment w) as Hiter.
  intros [-> | ->]; simpl.
  - unfold QueueThread_run_turn.
    destruct (queue_thread_alive w); [| by left].
    destruct (active w); [| by left].
    by destruct (QueueThread_run_iteration w) as [[[|] | e | c] w'].
  - unfold QueueThread_run_completes.
    destruct (queue_thread_alive w); [| by left].
    destruct (queue_thread_in_turn w); [| by left].
    by destruct (QueueThread_run_iteration w) as [[[|] | e | c] w'].
Qed.

(** X14. The counter bounds the starts of a lifetime.  In a service that
    was constructed with a limit on concurrent workers that a C [int] can
    hold, after any sequence of operations the number of workers ever
    started is at most the counter, and the counter is at most the limit
    (or 0, for a negative limit): once as many workers have been started
    as the limit allows, none is started again, whether or not the
    earlier ones have finished. *)
Theorem starts_bounded_by_limit (configuration : ProcessProperties) (queue : Q)
    (environment : Env) (previous : SigHandler) (w0 : World Q)
    (os : list operation) :
  AnsibleProcessorService__init__ configuration queue environment true previous
    = Ok w0 ->
  max_concurrent_ansible_processes configuration <= INT_MAX ->
  let w := perform_all os w0 in
  Z.of_nat (length (filter is_start (trace w))) <= counter w /\
  counter w <= Z.max 0 (max_concurrent_ansible_processes configuration).
Proof.
  intros Hinit Hlimit w.
  destruct (init_state _ _ _ _ _ Hinit) as (Hprops & _ & Hzero & Htrace).
  set (Inv := fun u : World Q =>
         process_properties u = configuration /\
         0 <= counter u <= INT_MAX /\
         Z.of_nat (length (filter is_start (trace u))) <= counter u /\
         counter u <= Z.max 0 (max_concurrent_ansible_processes configuration)).
  assert (Hstep : forall o u, Inv u -> Inv (perform o u)).
  { intros o u (Pu & Ru & Su & Lu).
    destruct (evolves_perform o u) as (P & _ & _ & C).
    unfold Inv. rewrite P, Pu.
    assert (Hdec : (o = DispatchLoopTurn \/ o = DispatchLoopCompletes) \/
                   (o <> DispatchLoopTurn /\ o <> DispatchLoopCompletes))
      by (destruct o; (by left; left) || (by left; right) || (by right)).
    destruct Hdec as [Ho | [Ho Ho']].
    - destruct (dispatch_starts_with_increment o u Ho)
        as [Hs | ([wk Hs] & Hlt & Hc)].
      + rewrite Hs. destruct C as [-> | [Hlt ->]]; [done |].
        rewrite Pu in Hlt.
        rewrite c_int_in_range by (unfold INT_MAX in *; lia).
        unfold INT_MAX in *. repeat split; lia.
      + rewrite Hs, Hc, length_app. simpl. rewrite Pu in Hlt.
        rewrite c_int_in_range by (unfold INT_MAX in *; lia).
        unfold INT_MAX in *. repeat split; lia.
    - rewrite (others_never_start o u Ho Ho').
      destruct C as [-> | [Hlt ->]]; [done |].
      rewrite Pu in Hlt.
      rewrite c_int_in_range by (unfold INT_MAX in *; lia).
      unfold INT_MAX in *. repeat split; lia. }
  assert (Hall : forall os' u, Inv u -> Inv (perform_all os' u)).
  { induction os' as [| o os' IH]; intros u Hu; [done |].
    simpl. apply IH. by apply Hstep. }
  assert (H0 : Inv w0).
  { unfold Inv. rewrite Hprops, Hzero, Htrace. simpl.
    unfold INT_MAX. repeat split; lia. }
  destruct (Hall os w0 H0) as (_ & _ & Hs & Hl). by subst w.
Qed.

(** ** After shutdown *)

Lemma filter_narrow (P1 P2 : event -> bool) (l l' : list event) :
  (forall ev, P1 ev = true -> P2 ev = true) ->
  filter P2 l' = filter P2 l -> filter P1 l' = filter P1 l.
Proof.
  intros Hsub Heq.
  assert (Hin : forall k : list event, filter P1 (filter P2 k) = filter P1 k).
  { induction k as [| x k IH]; [done |].
    rewrite !filter_cons.
    destruct (P2 x) eqn:E2; destruct (P1 x) eqn:E1; simpl;
      rewrite ?filter_cons, ?E1; simpl; rewrite ?IH; try done.
    by rewrite (Hsub x E1) in E2. }
  by rewrite <- (Hin l'), <- (Hin l), Heq.
Qed.

(** The calls of the facade and the runs of the workers leave the two
    loops where they are, start no worker and do not read the pipe. *)
Lemma loops_left_alone (o : operation) w :
  is_dispatch_operation o = false ->
  is_aggregator_operation o = false ->
  quiet loops (fun ev => is_start ev || is_recv ev) w (perform o w).
Proof.
  intros Hd Ha.
  set (P := fun ev => is_start ev || is_recv ev).
  assert (Hthread : forall worker : Worker,
            quiet_m (Q:=Q) loops P (AnsibleWorkerThread_run worker)).
  { intros worker. unfold AnsibleWorkerThread_run,
      ansible_client_run_lifecycle_playbook, traceback_print_exc, getitem,
      send_pipe_send.
    quiet_auto. }
  assert (Hproc : forall worker : Worker,
            quiet_m (Q:=Q) loops P (AnsibleWorkerProcess_run worker)).
  { intros worker. unfold AnsibleWorkerProcess_run,
      ansible_client_run_lifecycle_playbook, traceback_print_exc, getitem,
      send_pipe_send.
    quiet_auto. }
  assert (Hshut : quiet_m (Q:=Q) loops P shutdown).
  { unfold shutdown, request_queue_shutdown, send_pipe_close. quiet_auto. }
  destruct o; simpl; try discriminate.
  - assert (Hq : quiet_m (Q:=Q) loops P (run_lifecycle request)).
    { unfold run_lifecycle, request_queue_size, request_queue_put, getitem,
        send_lifecycle_execution. quiet_auto. }
    apply Hq.
  - assert (Hq : quiet_m (Q:=Q) loops P queue_status).
    { unfold queue_status, request_queue_queue_status. quiet_auto. }
    apply Hq.
  - apply Hshut.
  - assert (Hq : quiet_m (Q:=Q) loops P sigint_handler).
    { unfold sigint_handler. quiet_auto. apply Hshut. }
    apply Hq.
  - unfold worker_runs. destruct (workers w !! i) as [worker |]; [| done].
    unfold Worker_run.
    destruct (worker_kind worker);
      [apply (Hthread worker (set_workers (delete i (workers w)) w))
      | apply (Hproc worker (set_workers (delete i (workers w)) w))].
  - done.
  - unfold forked_worker_runs. destruct (workers w !! i) as [worker |]; [| done].
    destruct (worker_kind worker); [done |].
    apply (Hproc worker
             (set_send_pipe (mkPipe false (pipe_buffer (send_pipe w)))
                (set_workers (delete i (workers w)) w))).
Qed.

(** The body of the dispatch loop does not read the pipe and leaves the
    aggregator where it is; the body of the aggregator starts no worker,
    leaves the dispatch loop where it is and reads the pipe once. *)
Lemma dispatch_body_frame :
  quiet_m (Q:=Q)
    (fun w => (responses_thread_alive w, responses_thread_in_turn w))
    is_recv QueueThread_run_iteration.
Proof.
  unfold QueueThread_run_iteration, QueueThread_run_try, request_queue_next,
    request_queue_task_done, request_queue_put, Counter_value,
    Counter_increment, Worker_start, traceback_print_exc, is_shutdown_message.
  quiet_auto.
Qed.

Lemma aggregator_body_frame :
  quiet_m (Q:=Q)
    (fun w => (queue_thread_alive w, queue_thread_in_turn w))
    is_start ResponsesThread_run_iteration.
Proof.
  unfold ResponsesThread_run_iteration, recv_pipe_recv, send_lifecycle_execution.
  quiet_auto.
Qed.

Lemma aggregator_body_reads_once w :
  filter is_recv (trace (snd (ResponsesThread_run_iteration w)))
    = filter is_recv (trace w) ++ [EvPipeRecv].
Proof.
  unfold ResponsesThread_run_iteration, recv_pipe_recv, send_lifecycle_execution.
  unfold_monad. simpl.
  destruct (pipe_buffer (send_pipe w)) as [| [le |] rest]; simpl;
    rewrite ?(filter_snoc_false is_recv) by done;
    by rewrite filter_app.
Qed.

Lemma dispatcher_leaves_aggregator (o : operation) w :
  is_dispatch_operation o = true ->
  quiet (fun w => (responses_thread_alive w, responses_thread_in_turn w))
    is_recv w (perform o w).
Proof.
  intros Hd. destruct (dispatch_body_frame w) as [Hp Ht].
  destruct o; try discriminate Hd; simpl.
  - unfold QueueThread_run_turn.
    destruct (queue_thread_alive w); [| by split].
    destruct (active w); [| by split].
    by destruct (QueueThread_run_iteration w) as [[[|] | e | c] w'].
  - unfold QueueThread_run_enters.
    destruct (queue_thread_alive w); [| by split].
    destruct (queue_thread_in_turn w); [by split |].
    by destruct (active w).
  - unfold QueueThread_run_completes.
    destruct (queue_thread_alive w); [| by split].
    destruct (queue_thread_in_turn w); [| by split].
    by destruct (QueueThread_run_iteration w) as [[[|] | e | c] w'].
Qed.

Lemma aggregator_leaves_dispatcher (o : operation) w :
  is_aggregator_operation o = true ->
  quiet (fun w => (queue_thread_alive w, queue_thread_in_turn w))
    is_start w (perform o w).
Proof.
  intros Ha. destruct (aggregator_body_frame w) as [Hp Ht].
  destruct o; try discriminate Ha; simpl.
  - unfold ResponsesThread_run_turn.
    destruct (responses_thread_alive w); [| by split].
    destruct (active w); [| by split].
    destruct (recv_ready w); [| by split].
    by destruct (ResponsesThread_run_iteration w) as [[[] | e | c] w'].
  - unfold ResponsesThread_run_enters.
    destruct (responses_thread_alive w); [| by split].
    destruct (responses_thread_in_turn w); [by split |].
    by destruct (active w).
  - unfold ResponsesThread_run_completes.
    destruct (responses_thread_alive w); [| by split].
    destruct (responses_thread_in_turn w); [| by split].
    destruct (recv_ready w); [| by split].
    by destruct (ResponsesThread_run_iteration w) as [[[] | e | c] w'].
Qed.

(** With the flag down, an operation does not add to what the dispatch
    loop has still to do: a worker is started only by the body of a turn
    that was under way, and then no turn is under way any more. *)
Lemma dispatcher_runs_out (o : operation) w :
  active w = false ->
  (starts (perform o w)
   + turn_pending (queue_thread_alive (perform o w))
       (queue_thread_in_turn (perform o w))
   <= starts w + turn_pending (queue_thread_alive w) (queue_thread_in_turn w))%nat.
Proof.
  intros Hact. unfold starts.
  destruct (is_dispatch_operation o) eqn:Hd.
  - destruct o; try discriminate Hd; simpl.
    + unfold QueueThread_run_turn, turn_pending. rewrite Hact.
      destruct (queue_thread_alive w) eqn:Ea, (queue_thread_in_turn w) eqn:Et;
        simpl; rewrite ?Ea, ?Et; simpl; lia.
    + unfold QueueThread_run_enters, turn_pending. rewrite Hact.
      destruct (queue_thread_alive w) eqn:Ea, (queue_thread_in_turn w) eqn:Et;
        simpl; rewrite ?Ea, ?Et; simpl; lia.
    + unfold QueueThread_run_completes, turn_pending.
      destruct (queue_thread_alive w) eqn:Ea, (queue_thread_in_turn w) eqn:Et;
        simpl; rewrite ?Ea, ?Et; simpl; try lia.
      destruct (iteration_starts_with_increment w) as [Hs | ([wk Hs] & _)];
        destruct (QueueThread_run_iteration w) as [[[|] | e | c] w'];
        simpl in *; rewrite Hs, ?length_app; simpl;
        rewrite ?andb_false_r; simpl; lia.
  - destruct (is_aggregator_operation o) eqn:Ha.
    + destruct (aggregator_leaves_dispatcher o w Ha) as [Hp Ht].
      injection Hp as -> ->. by rewrite Ht.
    + destruct (loops_left_alone o w Hd Ha) as [Hl Hs].
      unfold loops in Hl. injection Hl as -> -> _ _.
      assert (Hsub : forall ev, is_start ev = true ->
                is_start ev || is_recv ev = true)
        by (by intros ev ->).
      by rewrite (filter_narrow is_start _ _ _ Hsub Hs).
Qed.

(** The same for the aggregator and its reads of the pipe. *)
Lemma aggregator_runs_out (o : operation) w :
  active w = false ->
  (pipe_reads (perform o w)
   + turn_pending (responses_thread_alive (perform o w))
       (responses_thread_in_turn (perform o w))
   <= pipe_reads w
      + turn_pending (responses_thread_alive w) (responses_thread_in_turn w))%nat.
Proof.
  intros Hact. unfold pipe_reads.
  destruct (is_aggregator_operation o) eqn:Ha.
  - destruct o; try discriminate Ha; simpl.
    + unfold ResponsesThread_run_turn, turn_pending. rewrite Hact.
      destruct (responses_thread_alive w) eqn:Ea, (responses_thread_in_turn w) eqn:Et;
        simpl; rewrite ?Ea, ?Et; simpl; lia.
    + unfold ResponsesThread_run_enters, turn_pending. rewrite Hact.
      destruct (responses_thread_alive w) eqn:Ea, (responses_thread_in_turn w) eqn:Et;
        simpl; rewrite ?Ea, ?Et; simpl; lia.
    + unfold ResponsesThread_run_completes, turn_pending.
      destruct (responses_thread_alive w) eqn:Ea, (responses_thread_in_turn w) eqn:Et;
        simpl; rewrite ?Ea, ?Et; simpl; try lia.
      destruct (recv_ready w); [| simpl; rewrite ?Ea, ?Et; simpl; lia].
      pose proof (aggregator_body_reads_once w) as Hs.
      destruct (ResponsesThread_run_iteration w) as [[[] | e | c] w'];
        simpl in *; rewrite Hs, ?length_app; simpl;
        rewrite ?andb_false_r; simpl; lia.
  - destruct (is_dispatch_operation o) eqn:Hd.
    + destruct (dispatcher_leaves_aggregator o w Hd) as [Hp Ht].
      injection Hp as -> ->. by rewrite Ht.
    + destruct (loops_left_alone o w Hd Ha) as [Hl Hs].
      unfold loops in Hl. injection Hl as _ _ -> ->.
      assert (Hsub : forall ev, is_recv ev = true ->
                is_start ev || is_recv ev = true)
        by (intros ev ->; apply orb_true_r).
      by rewrite (filter_narrow is_recv _ _ _ Hsub Hs).
Qed.

(** X15. [shutdown] does not stop the two loops at once, but it bounds
    what they still do.  Each loop tests the flag only between two turns:
    a loop that is past the test when the flag goes down, waiting in
    [next()] or [recv()], still runs the body of that turn, and no other.
    So after [shutdown], whatever operations follow, at most one more
    worker is started and at most one more object is read from the result
    pipe, and each only when a turn of its loop was under way. *)
Theorem after_shutdown_at_most_one_turn w (os : list operation) :
  let w1 := snd (shutdown w) in
  let w2 := perform_all os w1 in
  active w2 = false /\
  (starts w2
   <= starts w1
      + turn_pending (queue_thread_alive w) (queue_thread_in_turn w))%nat /\
  (pipe_reads w2
   <= pipe_reads w1
      + turn_pending (responses_thread_alive w) (responses_thread_in_turn w))%nat.
Proof.
  intros w1 w2.
  assert (Hact1 : active w1 = false) by reflexivity.
  assert (Hqa : queue_thread_alive w = queue_thread_alive w1) by reflexivity.
  assert (Hqt : queue_thread_in_turn w = queue_thread_in_turn w1) by reflexivity.
  assert (Hra : responses_thread_alive w = responses_thread_alive w1)
    by reflexivity.
  assert (Hrt : responses_thread_in_turn w = responses_thread_in_turn w1)
    by reflexivity.
  rewrite Hqa, Hqt, Hra, Hrt.
  clearbody w1. clear w Hqa Hqt Hra Hrt. subst w2.
  revert w1 Hact1. induction os as [| o os IH]; intros u Hact; simpl.
  - unfold turn_pending. repeat split; done || lia.
  - assert (Hact' : active (perform o u) = false)
      by (by apply (evolves_perform o u)).
    destruct (IH (perform o u) Hact') as (Ha & Hs & Hr).
    pose proof (dispatcher_runs_out o u Hact) as Hd.
    pose proof (aggregator_runs_out o u Hact) as Hg.
    repeat split; [done | lia | lia].
Qed.

(** X16. After [shutdown], and whatever operations came in between, a
    well-formed submission is answered with the FAILED result "Driver is
    inactive" that carries its id, and is not put on the queue. *)
Theorem submission_after_shutdown request (rid : value) w (os : list operation) :
  request !! "request_id" = Some rid ->
  is_Some (request !! "lifecycle_name") ->
  is_Some (request !! "lifecycle_path") ->
  let w2 := perform_all os (snd (shutdown w)) in
  let w3 := snd (run_lifecycle request w2) in
  fst (run_lifecycle request w2) = Ok tt /\
  extends w2 w3 /\
  published (events_since w2 w3)
    = [mkLifecycleExecution rid STATUS_FAILED
         (Some (mkFailureDetails FAILURE_CODE_INSUFFICIENT_CAPACITY
                  "Driver is inactive"))
         ∅] /\
  filter is_put (events_since w2 w3) = [] /\
  request_queue w3 = request_queue w2.
Proof.
  intros Hrid H2 H3 w2 w3.
  assert (Hact : active w2 = false).
  { subst w2. apply perform_all_keeps_inactive.
    unfold shutdown, request_queue_shutdown, send_pipe_close.
    by unfold_monad. }
  subst w3. generalize dependent w2. intros w2 Hact.
  rewrite (run_lifecycle_validated _ _ (mk_is_Some _ _ Hrid) H2 H3).
  unfold request_queue_size, getitem, send_lifecycle_execution,
    insufficient_capacity_result.
  unfold_monad. simpl. rewrite Hact. simpl. rewrite Hrid. simpl.
  by since_trace.
Qed.

(** ** The response aggregator *)

(** X17. The aggregator publishes what the workers wrote, in the order
    it was written, nothing twice and nothing changed: as many turns as
    there are objects at the head of the pipe publish exactly the results
    among them, in order (a [None] is skipped), and leave the rest of the
    pipe as it is. *)
Theorem aggregator_forwards_in_order
    (items rest : list (option LifecycleExecution)) w :
  active w = true ->
  responses_thread_alive w = true ->
  pipe_buffer (send_pipe w) = items ++ rest ->
  let w' := perform_all (replicate (length items) AggregatorTurn) w in
  published (trace w') = published (trace w) ++ omap id items /\
  pipe_buffer (send_pipe w') = rest /\
  pipe_closed (send_pipe w') = pipe_closed (send_pipe w) /\
  active w' = true /\
  responses_thread_alive w' = true.
Proof.
  revert w. induction items as [| x items IH]; intros w Hact Halive Hbuf w'.
  - subst w'. simpl. by rewrite app_nil_r.
  - subst w'. simpl.
    set (w1 := ResponsesThread_run_turn w).
    assert (H1 : published (trace w1)
                   = published (trace w) ++ omap id [x] /\
                 pipe_buffer (send_pipe w1) = items ++ rest /\
                 pipe_closed (send_pipe w1) = pipe_closed (send_pipe w) /\
                 active w1 = true /\ responses_thread_alive w1 = true).
    { subst w1. unfold ResponsesThread_run_turn, recv_ready.
      rewrite Halive, Hact, Hbuf. simpl.
      unfold ResponsesThread_run_iteration, recv_pipe_recv,
        send_lifecycle_execution.
      unfold_monad. simpl. rewrite Hbuf. simpl.
      unfold published.
      destruct x as [le |]; simpl; rewrite !omap_app; simpl;
        by rewrite ?app_nil_r, <- ?app_assoc. }
    destruct H1 as (Hp1 & Hb1 & Hc1 & Ha1 & Hl1).
    destruct (IH w1 Ha1 Hl1 Hb1) as (Hp & Hb & Hc & Ha & Hl).
    repeat split; try done.
    + rewrite Hp, Hp1. rewrite <- app_assoc. f_equal.
      by destruct x.
    + congruence.
Qed.


(** ** From submission to publication *)

(** The four steps of an undisturbed run, each with the whole of what it
    changes. *)
Lemma step_submit request w :
  is_Some (request !! "request_id") ->
  is_Some (request !! "lifecycle_name") ->
  is_Some (request !! "lifecycle_path") ->
  active w = true ->
  queue_size (request_queue w) < max_queue_size (process_properties w) ->
  let w' := perform (CallRunLifecycle request) w in
  settings_kept w w' /\
  counter w' = counter w /\
  request_queue w' = queue_put (Req request) (request_queue w) /\
  send_pipe w' = send_pipe w /\
  workers w' = workers w /\
  trace w' = trace w ++ [EvQueueSize; EvQueueSize; EvQueuePut (Req request)].
Proof.
  intros H1 H2 H3 Hact Hroom w'. subst w'. simpl.
  rewrite (run_lifecycle_validated _ _ H1 H2 H3).
  unfold request_queue_size, request_queue_put.
  unfold_monad. simpl. rewrite Hact. simpl.
  apply Z.leb_gt in Hroom. rewrite Hroom. simpl.
  unfold settings_kept. simpl. by rewrite <- !app_assoc.
Qed.

Lemma step_dispatch (r : Request) (q' : Q) w :
  queue_thread_alive w = true ->
  active w = true ->
  queue_next (request_queue w) = (Some (Req r), q') ->
  lock_fault (env w) OpValue = None ->
  counter w < max_concurrent_ansible_processes (process_properties w) ->
  lock_fault (env w) OpIncrement = None ->
  start_fault (env w) = None ->
  let worker :=
    mkWorker (if is_threaded (process_properties w) then ThreadWorker
              else ProcessWorker) (Some r) in
  let w' := perform DispatchLoopTurn w in
  settings_kept w w' /\
  counter w' = c_int (counter w + 1) /\
  request_queue w' = queue_task_done q' /\
  send_pipe w' = send_pipe w /\
  workers w' = workers w ++ [worker] /\
  trace w' = trace w ++ [EvQueueNext; EvCounterValue; EvCounterIncrement;
                         EvWorkerStart worker; EvQueueTaskDone].
Proof.
  intros Halive Hact Hnext Hvalue Hlt Hincr Hstart worker w'.
  subst worker w'. simpl. unfold QueueThread_run_turn.
  rewrite Halive, Hact. apply Z.ltb_lt in Hlt.
  unfold_dispatch. unfold_monad. simpl.
  rewrite Hnext. simpl. rewrite Hvalue. simpl. rewrite Hlt. simpl.
  rewrite Hincr. simpl.
  destruct (is_threaded (process_properties w)); simpl;
    rewrite Hstart; simpl; unfold settings_kept; simpl;
    by rewrite <- !app_assoc.
Qed.

Lemma step_worker (worker : Worker) request (resp : LifecycleExecution) w :
  workers w = [worker] ->
  worker_request worker = Some request ->
  run_lifecycle_playbook (env w) request = Ok (Some resp) ->
  send_pipe w = mkPipe false [] ->
  let w' := perform (WorkerRuns 0) w in
  settings_kept w w' /\
  counter w' = counter w /\
  request_queue w' = request_queue w /\
  send_pipe w' = mkPipe false [Some resp] /\
  workers w' = [] /\
  exists evs, trace w' = trace w ++ evs /\ published evs = [].
Proof.
  intros Hworkers Hreq Hclient Hpipe w'. subst w'. simpl.
  unfold worker_runs. rewrite Hworkers. simpl.
  unfold Worker_run, AnsibleWorkerThread_run, AnsibleWorkerProcess_run,
    ansible_client_run_lifecycle_playbook, send_pipe_send.
  rewrite Hreq. unfold_monad.
  destruct (worker_kind worker); simpl; rewrite Hclient; simpl;
    rewrite Hpipe; simpl; unfold settings_kept; simpl;
    repeat split; try done; eexists; (split; [by rewrite <- ?app_assoc | done]).
Qed.

Lemma step_aggregate (le : LifecycleExecution)
    (rest : list (option LifecycleExecution)) w :
  responses_thread_alive w = true ->
  active w = true ->
  pipe_buffer (send_pipe w) = Some le :: rest ->
  let w' := perform AggregatorTurn w in
  settings_kept w w' /\
  counter w' = counter w /\
  request_queue w' = request_queue w /\
  send_pipe w' = mkPipe (pipe_closed (send_pipe w)) rest /\
  workers w' = workers w /\
  trace w' = trace w ++ [EvPipeRecv; EvSendLifecycleExecution le].
Proof.
  intros Halive Hact Hbuf w'. subst w'. simpl.
  unfold ResponsesThread_run_turn, recv_ready. rewrite Halive, Hact, Hbuf.
  unfold ResponsesThread_run_iteration, recv_pipe_recv, send_lifecycle_execution.
  unfold_monad. simpl. rewrite Hbuf. simpl.
  unfold settings_kept. simpl. by rewrite <- !app_assoc.
Qed.

(** X19. One request through the whole service.  A well-formed request
    is submitted to an active service with room in the queue and under
    the limit, whose queue delivers next what was just put; the dispatch
    loop takes a turn, the worker it started runs and the client returns
    [resp], and the aggregator takes a turn.  Then exactly [resp] has
    been published, unchanged; the worker is gone, the pipe is empty
    again, and the counter is one higher than before: it is not taken
    back when the worker ends. *)
Theorem request_runs_to_publication request (resp : LifecycleExecution)
    (q1 : Q) w :
  is_Some (request !! "request_id") ->
  is_Some (request !! "lifecycle_name") ->
  is_Some (request !! "lifecycle_path") ->
  active w = true ->
  queue_thread_alive w = true ->
  responses_thread_alive w = true ->
  queue_size (request_queue w) < max_queue_size (process_properties w) ->
  queue_next (queue_put (Req request) (request_queue w))
    = (Some (Req request), q1) ->
  counter w < max_concurrent_ansible_processes (process_properties w) ->
  lock_fault (env w) OpValue = None ->
  lock_fault (env w) OpIncrement = None ->
  start_fault (env w) = None ->
  run_lifecycle_playbook (env w) request = Ok (Some resp) ->
  workers w = [] ->
  send_pipe w = mkPipe false [] ->
  let w' :=
    perform_all
      [CallRunLifecycle request; DispatchLoopTurn; WorkerRuns 0; AggregatorTurn]
      w in
  extends w w' /\
  published (events_since w w') = [resp] /\
  workers w' = [] /\
  send_pipe w' = mkPipe false [] /\
  counter w' = c_int (counter w + 1) /\
  request_queue w' = queue_task_done q1.
Proof.
  intros H1 H2 H3 Hact Hqalive Hralive Hroom Hnext Hbelow Hvalue Hincr Hstart
    Hclient Hworkers Hpipe w'. subst w'.
  change (perform_all _ w)
    with (perform AggregatorTurn
            (perform (WorkerRuns 0)
               (perform DispatchLoopTurn
                  (perform (CallRunLifecycle request) w)))).
  destruct (step_submit request w H1 H2 H3 Hact Hroom)
    as ((P1 & E1 & A1 & QA1 & RA1) & C1 & Q1 & S1 & W1 & T1).
  set (w1 := perform (CallRunLifecycle request) w) in *.
  pose proof (step_dispatch request q1 w1) as D.
  rewrite QA1, A1, Q1, E1, C1, P1 in D.
  destruct (D Hqalive Hact Hnext Hvalue Hbelow Hincr Hstart)
    as ((P2 & E2 & A2 & QA2 & RA2) & C2 & Q2 & S2 & W2 & T2).
  clear D.
  set (worker := mkWorker _ _) in *.
  set (w2 := perform DispatchLoopTurn w1) in *.
  pose proof (step_worker worker request resp w2) as D.
  rewrite W2, W1, Hworkers, E2, E1, S2, S1 in D.
  destruct (D eq_refl eq_refl Hclient Hpipe)
    as ((P3 & E3 & A3 & QA3 & RA3) & C3 & Q3 & S3 & W3 & evs & T3 & Hevs).
  clear D.
  set (w3 := perform (WorkerRuns 0) w2) in *.
  pose proof (step_aggregate resp [] w3) as D.
  rewrite RA3, RA2, RA1, A3, A2, A1, S3 in D.
  destruct (D Hralive Hact eq_refl)
    as ((P4 & E4 & A4 & QA4 & RA4) & C4 & Q4 & S4 & W4 & T4).
  clear D.
  set (w4 := perform AggregatorTurn w3) in *.
  assert (Htrace : trace w4
            = trace w
              ++ ([EvQueueSize; EvQueueSize; EvQueuePut (Req request)]
                  ++ [EvQueueNext; EvCounterValue; EvCounterIncrement;
                      EvWorkerStart worker; EvQueueTaskDone]
                  ++ evs ++ [EvPipeRecv; EvSendLifecycleExecution resp])).
  { rewrite T4, T3, T2, T1. by rewrite <- !app_assoc. }
  unfold extends. rewrite (events_since_app _ _ _ Htrace).
  split; [done |]. split.
  - unfold published in *. rewrite !omap_app, Hevs. done.
  - by rewrite ?W4, ?W3, ?S4, ?C4, ?C3, ?C2, ?Q4, ?Q3, ?Q2.
Qed.

End Properties.

(** * The conversion from JSON *)

(** X20. [to_lifecycle_execution] returns exactly for the dicts that have
    [request_id], [status] and [outputs] and whose [failure_details] is
    absent, [None], or a dict with [failure_code] and [description]; for
    every other dict it raises. *)
Theorem to_lifecycle_execution_succeeds_iff (json : gmap string jval) :
  (exists args, to_lifecycle_execution json = inr args) <->
  (json !! "failure_details" = None \/
   json !! "failure_details" = Some JNull \/
   exists o, json !! "failure_details" = Some (JObj o) /\
             is_Some (o !! "failure_code") /\ is_Some (o !! "description")) /\
  is_Some (json !! "request_id") /\
  is_Some (json !! "status") /\
  is_Some (json !! "outputs").
Proof.
  unfold to_lifecycle_execution, and_then, subscript. split.
  - intros [args Hargs].
    destruct (json !! "failure_details") as [[| b | n | t | l | o] |] eqn:Hfd;
      simpl in Hargs; try done.
    + destruct (json !! "request_id"); [| done].
      destruct (json !! "status"); [| done].
      destruct (json !! "outputs"); [| done].
      repeat split; eauto.
    + destruct (o !! "failure_code") as [code |] eqn:Hcode; [| done].
      destruct (o !! "description") as [text |] eqn:Htext; [| done].
      destruct (json !! "request_id"); [| done].
      destruct (json !! "status"); [| done].
      destruct (json !! "outputs"); [| done].
      repeat split; eauto.
      right. right. exists o. by rewrite Hcode, Htext.
    + destruct (json !! "request_id"); [| done].
      destruct (json !! "status"); [| done].
      destruct (json !! "outputs"); [| done].
      repeat split; eauto.
  - intros (Hfd & [rid ->] & [st ->] & [outs ->]).
    destruct Hfd as [-> | [-> | (o & -> & [code Hcode] & [text Htext])]];
      simpl; rewrite ?Hcode, ?Htext; by eexists.
Qed.

(** X21. What [to_lifecycle_execution] returns is what the dict holds,
    unchanged: the values under [request_id], [status] and [outputs], and
    as failure details the values under [failure_code] and [description]
    of the dict under [failure_details]; an absent [failure_details] and
    one that is [None] both give no failure details. *)
Theorem to_lifecycle_execution_passes_through (json : gmap string jval)
    (args : LifecycleExecutionArgs) :
  to_lifecycle_execution json = inr args ->
  json !! "request_id" = Some (arg_request_id args) /\
  json !! "status" = Some (arg_status args) /\
  json !! "outputs" = Some (arg_outputs args) /\
  match arg_failure_details args with
  | None =>
      json !! "failure_details" = None \/ json !! "failure_details" = Some JNull
  | Some (code, text) =>
      exists o, json !! "failure_details" = Some (JObj o) /\
                o !! "failure_code" = Some code /\ o !! "description" = Some text
  end.
Proof.
  unfold to_lifecycle_execution, and_then, subscript.
  destruct (json !! "failure_details") as [[| b | n | t | l | o] |] eqn:Hfd;
    simpl; try done.
  - destruct (json !! "request_id"); [| done].
    destruct (json !! "status"); [| done].
    destruct (json !! "outputs"); [| done].
    intros [= <-]. simpl. repeat split; auto.
  - destruct (o !! "failure_code") as [code |] eqn:Hcode; [| done].
    destruct (o !! "description") as [text |] eqn:Htext; [| done].
    destruct (json !! "request_id"); [| done].
    destruct (json !! "status"); [| done].
    destruct (json !! "outputs"); [| done].
    intros [= <-]. simpl. repeat split; eauto.
  - destruct (json !! "request_id"); [| done].
    destruct (json !! "status"); [| done].
    destruct (json !! "outputs"); [| done].
    intros [= <-]. simpl. repeat split; auto.
Qed.

(** X22. Which error [to_lifecycle_execution] raises.  The failure
    details are read first: a [failure_details] that is neither [None]
    nor a dict is a [TypeError], one without [failure_code] a [KeyError]
    for that key, one with it but without [description] a [KeyError] for
    that one, whatever else the dict holds.  Only then are [request_id],
    [status] and [outputs] read, in this order, and the first of them
    that is missing is the [KeyError] raised. *)
Theorem to_lifecycle_execution_first_error (json : gmap string jval) :
  (forall v, json !! "failure_details" = Some v ->
     v <> JNull -> (forall o, v <> JObj o) ->
     to_lifecycle_execution json = inl SubscriptTypeError) /\
  (forall o, json !! "failure_details" = Some (JObj o) ->
     o !! "failure_code" = None ->
     to_lifecycle_execution json = inl (SubscriptKeyError "failure_code")) /\
  (forall o, json !! "failure_details" = Some (JObj o) ->
     is_Some (o !! "failure_code") -> o !! "description" = None ->
     to_lifecycle_execution json = inl (SubscriptKeyError "description")) /\
  (forall key,
     (json !! "failure_details" = None \/
      json !! "failure_details" = Some JNull \/
      exists o, json !! "failure_details" = Some (JObj o) /\
                is_Some (o !! "failure_code") /\ is_Some (o !! "description")) ->
     find (fun k => bool_decide (json !! k = None)) execution_keys = Some key ->
     to_lifecycle_execution json = inl (SubscriptKeyError key)).
Proof.
  unfold to_lifecycle_execution, and_then, subscript.
  split; [| split; [| split]].
  - intros v Hv Hnull Hobj. rewrite Hv.
    destruct v; simpl; try done. by destruct (Hobj o).
  - intros o Hfd Hcode. by rewrite Hfd, Hcode.
  - intros o Hfd [code Hcode] Htext. by rewrite Hfd, Hcode, Htext.
  - intros key Hfd Hfind.
    unfold execution_keys in Hfind. simpl in Hfind.
    destruct Hfd as [-> | [-> | (o & -> & [code Hcode] & [text Htext])]];
      simpl; rewrite ?Hcode, ?Htext; simpl;
      (destruct (json !! "request_id"); simpl in *;
         [| by injection Hfind as <-]);
      (destruct (json !! "status"); simpl in *;
         [| by injection Hfind as <-]);
      (destruct (json !! "outputs"); simpl in *;
         [done | by injection Hfind as <-]).
Qed.

(** * Worked cases *)

(** The theorems above at the service of the unit tests
    ([src/tests/unit/service/test_process.py]), with the first-in
    first-out queue. *)

Lemma run_lifecycle_missing_field_witness :
  exists field : string,
    field ∈ required_fields /\
    request_without_name !! field = None /\
    run_lifecycle request_without_name overloaded_world
      = (Raise (mkExn ValueError ("Request must have a " +:+ field)),
         overloaded_world) /\
    events_since overloaded_world
      (snd (run_lifecycle request_without_name overloaded_world)) = [].
Proof.
  apply (run_lifecycle_missing_field request_without_name overloaded_world).
  right. left. reflexivity.
Defined.

Lemma run_lifecycle_names_first_missing_witness :
  first_missing_field request_without_name_and_path = Some "lifecycle_name" /\
  active inactive_world = false /\
  run_lifecycle request_without_name_and_path inactive_world
    = (Raise (mkExn ValueError "Request must have a lifecycle_name"),
       inactive_world).
Proof.
  split; [reflexivity |]. split; [reflexivity |].
  exact (run_lifecycle_names_first_missing request_without_name_and_path
           inactive_world "lifecycle_name" eq_refl).
Defined.

Lemma run_lifecycle_overloaded_witness :
  exists rid,
    install_request "b" !! "request_id" = Some rid /\
    fst (run_lifecycle (install_request "b") overloaded_world) = Ok tt /\
    extends overloaded_world (snd (run_lifecycle (install_request "b") overloaded_world)) /\
    events_since overloaded_world
      (snd (run_lifecycle (install_request "b") overloaded_world))
      = [EvQueueSize; EvQueueSize;
         EvSendLifecycleExecution
           (mkLifecycleExecution rid STATUS_FAILED
              (Some (mkFailureDetails FAILURE_CODE_INSUFFICIENT_CAPACITY
                       "Request cannot be handled, driver is overloaded"))
              ∅)] /\
    published
      (events_since overloaded_world
         (snd (run_lifecycle (install_request "b") overloaded_world)))
      = [mkLifecycleExecution rid STATUS_FAILED
           (Some (mkFailureDetails FAILURE_CODE_INSUFFICIENT_CAPACITY
                    "Request cannot be handled, driver is overloaded"))
           ∅] /\
    filter is_put
      (events_since overloaded_world
         (snd (run_lifecycle (install_request "b") overloaded_world))) = [] /\
    request_queue (snd (run_lifecycle (install_request "b") overloaded_world))
      = request_queue overloaded_world.
Proof.
  apply (run_lifecycle_overloaded (install_request "b") overloaded_world).
  - by eexists.
  - by eexists.
  - by eexists.
  - reflexivity.
  - by vm_compute.
Defined.

(** The description of the rejection is not the short one: the claim C1
    as worded, with description "driver is overloaded", fails at the
    second submission of [test_max_queue_size]. *)
Lemma run_lifecycle_overloaded_short_description_refuted :
  let w := overloaded_world in
  let request := install_request "b" in
  (is_Some (request !! "request_id") /\
   is_Some (request !! "lifecycle_name") /\
   is_Some (request !! "lifecycle_path") /\
   active w = true /\
   max_queue_size (process_properties w) <= queue_size (request_queue w)) /\
  ~ (exists le,
       published (events_since w (snd (run_lifecycle request w))) = [le] /\
       status le = STATUS_FAILED /\
       failure_details le
         = Some (mkFailureDetails FAILURE_CODE_INSUFFICIENT_CAPACITY
                   "driver is overloaded")).
Proof.
  split.
  - repeat split; try (by eexists). by vm_compute.
  - intros (le & Hpub & _ & Hdetails).
    vm_compute in Hpub. injection Hpub as <-. discriminate Hdetails.
Qed.

Lemma run_lifecycle_inactive_witness :
  exists rid,
    install_request "b" !! "request_id" = Some rid /\
    fst (run_lifecycle (install_request "b") inactive_world) = Ok tt /\
    extends inactive_world (snd (run_lifecycle (install_request "b") inactive_world)) /\
    events_since inactive_world
      (snd (run_lifecycle (install_request "b") inactive_world))
      = [EvQueueSize;
         EvSendLifecycleExecution
           (mkLifecycleExecution rid STATUS_FAILED
              (Some (mkFailureDetails FAILURE_CODE_INSUFFICIENT_CAPACITY
                       "Driver is inactive"))
              ∅)] /\
    published
      (events_since inactive_world
         (snd (run_lifecycle (install_request "b") inactive_world)))
      = [mkLifecycleExecution rid STATUS_FAILED
           (Some (mkFailureDetails FAILURE_CODE_INSUFFICIENT_CAPACITY
                    "Driver is inactive"))
           ∅] /\
    filter is_put
      (events_since inactive_world
         (snd (run_lifecycle (install_request "b") inactive_world))) = [] /\
    request_queue (snd (run_lifecycle (install_request "b") inactive_world))
      = request_queue inactive_world.
Proof.
  apply (run_lifecycle_inactive (install_request "b") inactive_world).
  - by eexists.
  - by eexists.
  - by eexists.
  - reflexivity.
Defined.

(** The queue is read once on the inactive path: the claim C3 as worded,
    with no call of [size], fails at the submission of [test_shutdown]. *)
Lemma run_lifecycle_inactive_no_queue_call_refuted :
  let w := inactive_world in
  let request := install_request "b" in
  (is_Some (request !! "request_id") /\
   is_Some (request !! "lifecycle_name") /\
   is_Some (request !! "lifecycle_path") /\
   active w = false) /\
  queue_calls (events_since w (snd (run_lifecycle request w))) = [EvQueueSize] /\
  ~ (queue_calls (events_since w (snd (run_lifecycle request w))) = []).
Proof.
  split; [| split].
  - repeat split; by eexists.
  - by vm_compute.
  - intros Hnone. vm_compute in Hnone. discriminate Hnone.
Qed.


Lemma worker_reports_exception_witness :
  let self := mkWorker ProcessWorker (Some (install_request "a")) in
  let result :=
    mkLifecycleExecution (VStr "a") STATUS_FAILED
      (Some (mkFailureDetails FAILURE_CODE_INTERNAL_ERROR
               "Unexpected exception: playbook failed"))
      ∅ in
  (fst (AnsibleWorkerThread_run self failing_world) = Ok tt /\
   extends failing_world (snd (AnsibleWorkerThread_run self failing_world)) /\
   written (events_since failing_world
              (snd (AnsibleWorkerThread_run self failing_world)))
     = [Some result] /\
   pipe_buffer (send_pipe (snd (AnsibleWorkerThread_run self failing_world)))
     = pipe_buffer (send_pipe failing_world) ++ [Some result]) /\
  (fst (AnsibleWorkerProcess_run self failing_world) = Ok tt /\
   extends failing_world (snd (AnsibleWorkerProcess_run self failing_world)) /\
   written (events_since failing_world
              (snd (AnsibleWorkerProcess_run self failing_world)))
     = [Some result] /\
   pipe_buffer (send_pipe (snd (AnsibleWorkerProcess_run self failing_world)))
     = pipe_buffer (send_pipe failing_world) ++ [Some result]).
Proof.
  intros self result.
  pose proof (worker_reports_exception self (install_request "a") (VStr "a")
                (mkExn RuntimeError "playbook failed") failing_world
                eq_refl eq_refl eq_refl eq_refl) as Hrun.
  split.
  - exact (Hrun AnsibleWorkerThread_run (or_introl eq_refl)).
  - exact (Hrun AnsibleWorkerProcess_run (or_intror eq_refl)).
Defined.

(** The claim C4 as worded, for every worker, fails for a worker thread
    that is still to run when the service is shut down: the service is
    constructed with worker threads and a client that raises, a request
    is submitted and dispatched, and [shutdown] closes the connection the
    worker was given.  The handler's [send] raises [OSError], which
    leaves [run], and nothing is written. *)
Lemma worker_reports_exception_closed_pipe_refuted :
  let w0 := sample_world threaded_properties (calm failing_client)
              (empty_queue 100) in
  let w := perform_all shut_down_early w0 in
  let self := mkWorker ThreadWorker (Some (install_request "a")) in
  AnsibleProcessorService__init__ threaded_properties (empty_queue 100)
    (calm failing_client) true SIG_DFL = Ok w0 /\
  (workers w = [self] /\
   worker_request self = Some (install_request "a") /\
   install_request "a" !! "request_id" = Some (VStr "a") /\
   run_lifecycle_playbook (env w) (install_request "a")
     = Raise (mkExn RuntimeError "playbook failed")) /\
  fst (AnsibleWorkerThread_run self w) = Raise (mkExn OSError "handle is closed") /\
  pipe_buffer (send_pipe (snd (AnsibleWorkerThread_run self w))) = [] /\
  pipe_buffer (send_pipe (perform (WorkerRuns 0) w)) = [] /\
  ~ (fst (AnsibleWorkerThread_run self w) = Ok tt).
Proof.
  intros w0 w self.
  assert (Hrun : fst (AnsibleWorkerThread_run self w)
                 = Raise (mkExn OSError "handle is closed"))
    by (vm_compute; reflexivity).
  split; [reflexivity |]. split.
  { split; [vm_compute; reflexivity |]. split; [reflexivity |].
    split; reflexivity. }
  split; [exact Hrun |].
  split; [vm_compute; reflexivity |].
  split; [vm_compute; reflexivity |].
  rewrite Hrun. discriminate.
Qed.

Lemma worker_silent_on_empty_response_witness :
  let self := mkWorker ThreadWorker (Some (install_request "a")) in
  fst (AnsibleWorkerThread_run self silent_world) = Ok tt /\
  extends silent_world (snd (AnsibleWorkerThread_run self silent_world)) /\
  written (events_since silent_world
             (snd (AnsibleWorkerThread_run self silent_world))) = [] /\
  published (events_since silent_world
               (snd (AnsibleWorkerThread_run self silent_world))) = [] /\
  send_pipe (snd (AnsibleWorkerThread_run self silent_world))
    = send_pipe silent_world /\
  log (snd (AnsibleWorkerThread_run self silent_world))
    = log silent_world
      ++ [(WARN, "Empty response from Ansible worker for request {0}")].
Proof.
  intros self.
  exact (worker_silent_on_empty_response self (install_request "a") silent_world
           eq_refl eq_refl AnsibleWorkerThread_run (or_introl eq_refl)).
Defined.



Lemma dispatch_acknowledges_once_witness :
  let r := install_request "a" in
  let worker := mkWorker ProcessWorker (Some r) in
  let w' := snd (QueueThread_run_iteration refusing_world) in
  start_fault (env refusing_world)
    = Some (mkExn RuntimeError "can't start new thread") /\
  fst (QueueThread_run_iteration refusing_world) = Ok Continue /\
  extends refusing_world w' /\
  count_event EvQueueTaskDone (events_since refusing_world w') = 1%nat /\
  events_since refusing_world w'
    = [EvQueueNext; EvCounterValue; EvCounterIncrement; EvWorkerStart worker;
       EvQueueTaskDone].
Proof.
  intros r worker w'. split; [reflexivity |].
  destruct (@dispatch_acknowledges_once FifoQueue FifoQueue_RequestQueue r
              (mkFifoQueue [] 1 true 100) refusing_world eq_refl eq_refl)
    as (Hcontinue & Hextends & Honce & Hbelow & _).
  exact (conj Hcontinue (conj Hextends (conj Honce (Hbelow eq_refl)))).
Defined.

Lemma counter_never_decreases_witness :
  let w0 := test_world in
  let w := perform_all sample_day w0 in
  AnsibleProcessorService__init__ ProcessProperties__init__ (empty_queue 100)
    (calm completing_client) true SIG_DFL = Ok w0 /\
  counter w0 = 0 /\
  count_event EvCounterDecrement (trace (perform DispatchLoopTurn w)) = 0%nat /\
  (counter (perform DispatchLoopTurn w) = counter w \/
   counter (perform DispatchLoopTurn w) = c_int (counter w + 1)) /\
  0 <= counter w /\
  counter w <= counter (perform DispatchLoopTurn w).
Proof.
  intros w0 w. split; [reflexivity |].
  destruct (counter_never_decreases ProcessProperties__init__ (empty_queue 100)
              (calm completing_client) SIG_DFL w0 sample_day DispatchLoopTurn
              eq_refl) as (Hzero & Hdecr & Hstep & Hmono).
  destruct Hmono as [Hpos Hle]; [by vm_compute |].
  exact (conj Hzero (conj Hdecr (conj Hstep (conj Hpos Hle)))).
Defined.

(** A round, in a service whose limit is one above the largest C [int]:
    the request is put on the empty queue, taken from it at once and a
    worker is started for it, and the counter is incremented. *)
Lemma round_increments (c : Z) (w : World FifoQueue) :
  between_rounds c w -> 0 <= c <= INT_MAX ->
  let w1 := perform (CallRunLifecycle (install_request "a")) w in
  counter w1 = c /\
  between_rounds (c_int (c + 1)) (perform DispatchLoopTurn w1).
Proof.
  intros (Hp & He & Ha & Hq & Hr & Hc) Hrange w1.
  destruct (step_submit (install_request "a") w) as
    ((P1 & E1 & A1 & QA1 & _) & C1 & Q1 & _);
    [by eexists | by eexists | by eexists | done
    | by rewrite Hr, Hp |].
  fold w1 in P1, E1, A1, QA1, C1, Q1.
  split; [congruence |].
  pose proof (step_dispatch (install_request "a") (mkFifoQueue [] 1 true 100) w1)
    as D.
  rewrite QA1, A1, Q1, E1, C1, P1, Hq, Ha, Hr, He, Hc, Hp in D.
  destruct D as ((P2 & E2 & A2 & QA2 & _) & C2 & Q2 & _);
    [done | done | done | done
    | unfold wide_properties, INT_MAX in *; simpl; lia | done | done |].
  unfold between_rounds.
  rewrite P2, E2, A2, QA2, C2, Q2.
  rewrite ?P1, ?E1, ?A1, ?QA1, ?C1, ?Hp, ?He, ?Ha, ?Hq, ?Hc.
  repeat split; reflexivity.
Qed.

Lemma rounds_count (n : nat) : forall (c : Z) (w : World FifoQueue),
  between_rounds c w -> 0 <= c -> c + Z.of_nat n <= INT_MAX ->
  between_rounds (c + Z.of_nat n) (perform_all (rounds n) w).
Proof.
  induction n as [| n IH]; intros c w Hw Hc Hn.
  - by rewrite Z.add_0_r.
  - change (perform_all (rounds (S n)) w)
      with (perform_all (rounds n)
              (perform DispatchLoopTurn
                 (perform (CallRunLifecycle (install_request "a")) w))).
    destruct (round_increments c w Hw) as [_ Hround]; [lia |].
    rewrite c_int_in_range in Hround by (unfold INT_MAX in *; lia).
    replace (c + Z.of_nat (S n)) with ((c + 1) + Z.of_nat n) by lia.
    apply IH; [done | lia | lia].
Qed.

(** The claim C6 as worded, for every service, fails for a limit above
    the largest C [int].  The service is constructed with a limit of
    2^31; a request is submitted and dispatched at once, 2^31 - 1 times
    over, and the counter stands at 2^31 - 1, still below the limit.  The
    turn that dispatches one more request takes it to -2^31. *)
Lemma counter_never_decreases_wraps_refuted :
  exists n : nat,
    Z.of_nat n = INT_MAX /\
    let w0 := sample_world wide_properties (calm completing_client)
                (empty_queue 100) in
    let w := perform_all (rounds n ++ [CallRunLifecycle (install_request "a")])
               w0 in
    AnsibleProcessorService__init__ wide_properties (empty_queue 100)
      (calm completing_client) true SIG_DFL = Ok w0 /\
    max_concurrent_ansible_processes wide_properties = 2 ^ 31 /\
    counter w = INT_MAX /\
    counter (perform DispatchLoopTurn w) = - 2 ^ 31 /\
    ~ (counter w <= counter (perform DispatchLoopTurn w)).
Proof.
  assert (Hpos : 0 <= INT_MAX) by (unfold INT_MAX; lia).
  exists (Z.to_nat INT_MAX). split; [exact (Z2Nat.id INT_MAX Hpos) |].
  generalize (Z2Nat.id INT_MAX Hpos). generalize (Z.to_nat INT_MAX).
  intros n Hn w0 w.
  split; [reflexivity |]. split; [reflexivity |].
  assert (H0 : between_rounds 0 w0) by (by repeat split).
  pose proof (rounds_count n 0 w0 H0) as Hrounds.
  rewrite Z.add_0_l, Hn in Hrounds.
  specialize (Hrounds ltac:(lia) ltac:(lia)).
  assert (Hw : w = perform (CallRunLifecycle (install_request "a"))
                     (perform_all (rounds n) w0)).
  { subst w. unfold perform_all. by rewrite foldl_app. }
  destruct (round_increments INT_MAX _ Hrounds) as [Hc Hwrap]; [lia |].
  rewrite <- Hw in Hc, Hwrap.
  destruct Hwrap as (_ & _ & _ & _ & _ & Hc').
  assert (Hmin : c_int (INT_MAX + 1) = - 2 ^ 31) by reflexivity.
  rewrite Hc, Hc', Hmin. unfold INT_MAX.
  split; [reflexivity |]. split; [reflexivity |]. lia.
Qed.

(** The counter on that day: the first worker has finished and reported
    when the second request is dispatched, and the counter goes from 1
    to 2. *)
Example counter_after_completion :
  let w := perform_all sample_day test_world in
  workers w = [] /\
  counter w = 1 /\
  counter (perform DispatchLoopTurn w) = 2.
Proof. by vm_compute. Qed.

(** * The unit tests *)

(** The four tests of [src/tests/unit/service/test_process.py], run on the
    embedding. *)

Example test_run_lifecycle_invalid_request :
  fst (run_lifecycle (delete "request_id" (install_request "a")) test_world)
    = Raise (mkExn ValueError "Request must have a request_id") /\
  fst (run_lifecycle (delete "lifecycle_name" (install_request "a")) test_world)
    = Raise (mkExn ValueError "Request must have a lifecycle_name") /\
  fst (run_lifecycle (delete "lifecycle_path" (install_request "a")) test_world)
    = Raise (mkExn ValueError "Request must have a lifecycle_path").
Proof. by vm_compute. Qed.

Example test_run_lifecycle :
  published
    (trace (perform_all
              [CallRunLifecycle (install_request "a"); DispatchLoopTurn;
               WorkerRuns 0; AggregatorTurn]
              test_world))
    = [mkLifecycleExecution (VStr "a") STATUS_COMPLETE None ∅].
Proof. by vm_compute. Qed.

Example test_shutdown :
  published
    (trace (perform_all [CallShutdown; CallRunLifecycle (install_request "a")]
              test_world))
    = [mkLifecycleExecution (VStr "a") STATUS_FAILED
         (Some (mkFailureDetails FAILURE_CODE_INSUFFICIENT_CAPACITY
                  "Driver is inactive"))
         ∅].
Proof. by vm_compute. Qed.

Example test_max_queue_size :
  published
    (trace (perform_all
              [CallRunLifecycle (install_request "a");
               CallRunLifecycle (install_request "b")]
              (sample_world small_queue_properties (calm completing_client)
                 (empty_queue 1))))
    = [mkLifecycleExecution (VStr "b") STATUS_FAILED
         (Some (mkFailureDetails FAILURE_CODE_INSUFFICIENT_CAPACITY
                  "Request cannot be handled, driver is overloaded"))
         ∅].
Proof. by vm_compute. Qed.

(** ** Further cases *)

Lemma run_lifecycle_enqueues_witness :
  let w' := snd (run_lifecycle (install_request "a") test_world) in
  fst (run_lifecycle (install_request "a") test_world) = Ok tt /\
  extends test_world w' /\
  events_since test_world w'
    = [EvQueueSize; EvQueueSize; EvQueuePut (Req (install_request "a"))] /\
  published (events_since test_world w') = [] /\
  request_queue w'
    = queue_put (Req (install_request "a")) (request_queue test_world).
Proof.
  apply (run_lifecycle_enqueues (install_request "a") test_world).
  - by eexists.
  - by eexists.
  - by eexists.
  - reflexivity.
  - reflexivity.
Defined.

Lemma run_lifecycle_enqueues_or_rejects_witness :
  let w' := snd (run_lifecycle (install_request "b") overloaded_world) in
  fst (run_lifecycle (install_request "b") overloaded_world) = Ok tt /\
  extends overloaded_world w' /\
  filter is_put (events_since overloaded_world w') = [] /\
  length (published (events_since overloaded_world w')) = 1%nat /\
  Forall (fun le => request_id le = VStr "b" /\ status le = STATUS_FAILED)
    (published (events_since overloaded_world w')).
Proof.
  exact (@run_lifecycle_enqueues_or_rejects FifoQueue FifoQueue_RequestQueue
           (install_request "b") (VStr "b") overloaded_world eq_refl
           (mk_is_Some _ _ eq_refl) (mk_is_Some _ _ eq_refl)).
Defined.

Lemma Counter_wraps_witness :
  counter full_counter_world = INT_MAX /\
  counter (snd (Counter_increment full_counter_world)) = - 2 ^ 31 /\
  counter (snd (Counter_decrement full_counter_world)) = INT_MAX - 1.
Proof.
  split; [reflexivity |].
  destruct (@Counter_wraps FifoQueue full_counter_world eq_refl eq_refl)
    as (_ & _ & Hwrap).
  apply Hwrap. by vm_compute.
Defined.

Lemma Counter_increment_decrement_witness :
  counter (snd ((Counter_increment;; Counter_decrement) full_counter_world))
    = counter full_counter_world /\
  counter (snd ((Counter_decrement;; Counter_increment) full_counter_world))
    = counter full_counter_world /\
  events_since full_counter_world
    (snd ((Counter_increment;; Counter_decrement) full_counter_world))
    = [EvCounterIncrement; EvCounterDecrement].
Proof.
  apply (@Counter_increment_decrement FifoQueue full_counter_world).
  - reflexivity.
  - reflexivity.
  - by vm_compute.
Defined.

Lemma worker_forwards_response_witness :
  let self := sample_worker ThreadWorker in
  let w' := snd (AnsibleWorkerThread_run self test_world) in
  fst (AnsibleWorkerThread_run self test_world) = Ok tt /\
  extends test_world w' /\
  written (events_since test_world w') = [Some (result_of "a")] /\
  published (events_since test_world w') = [] /\
  pipe_buffer (send_pipe w')
    = pipe_buffer (send_pipe test_world) ++ [Some (result_of "a")].
Proof.
  intros self w'.
  exact (@worker_forwards_response FifoQueue self (install_request "a")
           (result_of "a") test_world eq_refl eq_refl eq_refl
           AnsibleWorkerThread_run (or_introl eq_refl)).
Defined.

Lemma worker_without_request_witness :
  let self := mkWorker ProcessWorker None in
  let w' := snd (AnsibleWorkerProcess_run self test_world) in
  fst (AnsibleWorkerProcess_run self test_world) = Ok tt /\
  extends test_world w' /\
  filter (fun ev => is_client_call ev || is_pipe_call ev)
    (events_since test_world w') = [] /\
  send_pipe w' = send_pipe test_world /\
  log w' = log test_world.
Proof.
  intros self w'.
  exact (@worker_without_request FifoQueue self test_world eq_refl
           AnsibleWorkerProcess_run (or_intror eq_refl)).
Defined.

Lemma worker_on_closed_pipe_witness :
  let self := sample_worker ThreadWorker in
  pipe_closed (send_pipe inactive_world) = true /\
  fst (AnsibleWorkerThread_run self inactive_world)
    = Raise (mkExn OSError "handle is closed") /\
  send_pipe (snd (AnsibleWorkerThread_run self inactive_world))
    = send_pipe inactive_world.
Proof.
  intros self. split; [reflexivity |].
  exact (@worker_on_closed_pipe FifoQueue self (install_request "a") (VStr "a")
           inactive_world eq_refl eq_refl eq_refl
           (or_introl (ex_intro _ (result_of "a") eq_refl))
           AnsibleWorkerThread_run (or_introl eq_refl)).
Defined.

Lemma worker_without_request_id_witness :
  let request := delete "request_id" (install_request "a") in
  let self := mkWorker ThreadWorker (Some request) in
  let w' := snd (AnsibleWorkerThread_run self failing_world) in
  fst (AnsibleWorkerThread_run self failing_world)
    = Raise (mkExn KeyError "'request_id'") /\
  extends failing_world w' /\
  written (events_since failing_world w') = [] /\
  send_pipe w' = send_pipe failing_world.
Proof.
  intros request self w'.
  exact (@worker_without_request_id FifoQueue self request
           (mkExn RuntimeError "playbook failed") failing_world
           eq_refl eq_refl eq_refl AnsibleWorkerThread_run (or_introl eq_refl)).
Defined.

Lemma worker_frame_witness :
  let self := sample_worker ProcessWorker in
  let w' := snd (AnsibleWorkerProcess_run self failing_world) in
  (active w', counter w', request_queue w', workers w')
    = (active failing_world, counter failing_world,
       request_queue failing_world, workers failing_world) /\
  filter (fun ev => is_queue_call ev || is_counter_call ev || is_publish ev
                    || is_start ev) (trace w')
    = filter (fun ev => is_queue_call ev || is_counter_call ev
                        || is_publish ev || is_start ev) (trace failing_world).
Proof.
  intros self w'.
  exact (@worker_frame FifoQueue self failing_world AnsibleWorkerProcess_run
           (or_intror eq_refl)).
Defined.

Lemma dispatch_ends_at_sentinel_witness :
  let w1 := perform DispatchLoopTurn sentinel_world in
  fst (QueueThread_run_iteration sentinel_world) = Ok Break /\
  extends sentinel_world w1 /\
  events_since sentinel_world w1 = [EvQueueNext; EvQueueTaskDone] /\
  request_queue w1 = queue_task_done (mkFifoQueue [] 1 false 100) /\
  (counter w1, workers w1) = (counter sentinel_world, workers sentinel_world) /\
  queue_thread_alive w1 = false /\
  perform_all (replicate 3 DispatchLoopTurn) w1 = w1.
Proof.
  exact (@dispatch_ends_at_sentinel FifoQueue FifoQueue_RequestQueue
           (mkFifoQueue [] 1 false 100) sentinel_world 3
           eq_refl eq_refl eq_refl).
Defined.

Lemma dispatch_loses_request_on_counter_failure_witness :
  let w' := snd (QueueThread_run_iteration unreadable_counter_world) in
  fst (QueueThread_run_iteration unreadable_counter_world) = Ok Continue /\
  extends unreadable_counter_world w' /\
  events_since unreadable_counter_world w' = [EvQueueNext; EvCounterValue] /\
  request_queue w' = mkFifoQueue [] 1 true 100 /\
  (counter w', workers w')
    = (counter unreadable_counter_world, workers unreadable_counter_world) /\
  log w' = log unreadable_counter_world
           ++ [(TRACEBACK, ""); (ERROR, "Unexpected exception {0}")].
Proof.
  exact (@dispatch_loses_request_on_counter_failure FifoQueue
           FifoQueue_RequestQueue (install_request "a")
           (mkFifoQueue [] 1 true 100) (mkExn OSError "lock failed")
           unreadable_counter_world eq_refl eq_refl).
Defined.

Lemma starts_bounded_by_limit_witness :
  let w := perform_all sample_day test_world in
  Z.of_nat (length (filter is_start (trace w))) <= counter w /\
  counter w <= Z.max 0 (max_concurrent_ansible_processes ProcessProperties__init__).
Proof.
  apply (@starts_bounded_by_limit FifoQueue FifoQueue_RequestQueue
           ProcessProperties__init__ (empty_queue 100) (calm completing_client)
           SIG_DFL test_world sample_day).
  - reflexivity.
  - by vm_compute.
Defined.

Lemma submission_after_shutdown_witness :
  let w2 :=
    perform_all [DispatchLoopTurn; AggregatorTurn] (snd (shutdown queued_world)) in
  let w3 := snd (run_lifecycle (install_request "b") w2) in
  fst (run_lifecycle (install_request "b") w2) = Ok tt /\
  extends w2 w3 /\
  published (events_since w2 w3)
    = [mkLifecycleExecution (VStr "b") STATUS_FAILED
         (Some (mkFailureDetails FAILURE_CODE_INSUFFICIENT_CAPACITY
                  "Driver is inactive"))
         ∅] /\
  filter is_put (events_since w2 w3) = [] /\
  request_queue w3 = request_queue w2.
Proof.
  exact (@submission_after_shutdown FifoQueue FifoQueue_RequestQueue
           (install_request "b") (VStr "b") queued_world
           [DispatchLoopTurn; AggregatorTurn] eq_refl
           (mk_is_Some _ _ eq_refl) (mk_is_Some _ _ eq_refl)).
Defined.

Lemma aggregator_forwards_in_order_witness :
  let w' := perform_all (replicate 3 AggregatorTurn) piped_world in
  published (trace w')
    = published (trace piped_world) ++ [result_of "a"; result_of "b"] /\
  pipe_buffer (send_pipe w') = [Some (result_of "c")] /\
  pipe_closed (send_pipe w') = pipe_closed (send_pipe piped_world) /\
  active w' = true /\
  responses_thread_alive w' = true.
Proof.
  exact (@aggregator_forwards_in_order FifoQueue FifoQueue_RequestQueue
           [Some (result_of "a"); None; Some (result_of "b")]
           [Some (result_of "c")] piped_world eq_refl eq_refl eq_refl).
Defined.


Lemma request_runs_to_publication_witness :
  let w' :=
    perform_all
      [CallRunLifecycle (install_request "a"); DispatchLoopTurn; WorkerRuns 0;
       AggregatorTurn]
      test_world in
  extends test_world w' /\
  published (events_since test_world w') = [result_of "a"] /\
  workers w' = [] /\
  send_pipe w' = mkPipe false [] /\
  counter w' = c_int (counter test_world + 1) /\
  request_queue w' = queue_task_done (mkFifoQueue [] 1 true 100).
Proof.
  apply (@request_runs_to_publication FifoQueue FifoQueue_RequestQueue
           (install_request "a") (result_of "a") (mkFifoQueue [] 1 true 100)
           test_world).
  - by eexists.
  - by eexists.
  - by eexists.
  - reflexivity.
  - reflexivity.
  - reflexivity.
  - reflexivity.
  - reflexivity.
  - reflexivity.
  - reflexivity.
  - reflexivity.
  - reflexivity.
  - reflexivity.
  - reflexivity.
  - reflexivity.
Defined.

Lemma to_lifecycle_execution_passes_through_witness :
  let args :=
    mkLifecycleExecutionArgs (JStr "a") (JStr "FAILED")
      (Some (JStr "INTERNAL_ERROR", JStr "playbook failed")) (JObj ∅) in
  to_lifecycle_execution failed_json = inr args /\
  failed_json !! "request_id" = Some (JStr "a") /\
  failed_json !! "status" = Some (JStr "FAILED") /\
  failed_json !! "outputs" = Some (JObj ∅) /\
  exists o, failed_json !! "failure_details" = Some (JObj o) /\
            o !! "failure_code" = Some (JStr "INTERNAL_ERROR") /\
            o !! "description" = Some (JStr "playbook failed").
Proof.
  intros args. split; [reflexivity |].
  exact (to_lifecycle_execution_passes_through failed_json args eq_refl).
Defined.

Lemma init_returns_only_without_pool_witness :
  (forall w0,
     AnsibleProcessorService__init__ pool_properties (empty_queue 100)
       (calm completing_client) true SIG_DFL <> Ok w0) /\
  AnsibleProcessorService__init__ ProcessProperties__init__ (empty_queue 100)
    (calm completing_client) true SIG_DFL = Ok test_world /\
  (true = true /\ use_pool ProcessProperties__init__ = false /\
   (forall c, init_fault (calm completing_client) c = None) /\
   start_fault (calm completing_client) = None) /\
  active test_world = true /\ counter test_world = 0 /\
  send_pipe test_world = mkPipe false [] /\
  workers test_world = [] /\ request_queue test_world = empty_queue 100 /\
  process_properties test_world = ProcessProperties__init__ /\
  loops test_world = (true, false, true, false).
Proof.
  split.
  - exact (proj1 (proj2 (@init_returns_only_without_pool FifoQueue
                           pool_properties (empty_queue 100)
                           (calm completing_client) true SIG_DFL))
             eq_refl).
  - split; [reflexivity |].
    exact (proj2 (proj2 (@init_returns_only_without_pool FifoQueue
                           ProcessProperties__init__ (empty_queue 100)
                           (calm completing_client) true SIG_DFL))
             test_world eq_refl).
Defined.

(** Off the main thread the constructor raises what [signal.signal]
    raises, with the default configuration as with any other. *)
Example init_off_main_thread :
  AnsibleProcessorService__init__ ProcessProperties__init__ (empty_queue 100)
    off_main_thread true SIG_DFL
    = Raise (mkExn ValueError
               "signal only works in main thread of the main interpreter").
Proof. reflexivity. Qed.

(** One more turn after the shutdown, in either loop.  When the
    shutdown comes while the dispatch loop waits in [next()], the request
    that was waiting is dispatched after it: a worker is started for it,
    ahead of the sentinel, and only then does the loop end.  When it
    comes while a worker process is at work and the aggregator waits in
    [recv()], the worker's result is sent on the worker's own copy of the
    connection and published after the shutdown. *)
Example worker_started_after_shutdown :
  let w := perform_all shutdown_during_dispatch test_world in
  active w = false /\
  events_since test_world w
    = [EvQueueSize; EvQueueSize; EvQueuePut (Req (install_request "a"));
       EvQueueShutdown; EvPipeClose;
       EvQueueNext; EvCounterValue; EvCounterIncrement;
       EvWorkerStart (mkWorker ProcessWorker (Some (install_request "a")));
       EvQueueTaskDone] /\
  workers w = [mkWorker ProcessWorker (Some (install_request "a"))] /\
  queue_thread_alive w = false.
Proof. by vm_compute. Qed.

Example result_published_after_shutdown :
  let w := perform_all shutdown_during_work test_world in
  active w = false /\
  pipe_closed (send_pipe w) = true /\
  filter (fun ev => is_pipe_call ev || is_publish ev) (events_since test_world w)
    = [EvPipeClose;
       EvPipeSend (Some (result_of "a"));
       EvPipeRecv;
       EvSendLifecycleExecution (result_of "a")] /\
  responses_thread_alive w = false.
Proof. by vm_compute. Qed.

Lemma to_lifecycle_execution_first_error_witness :
  to_lifecycle_execution (delete "status" (delete "outputs" failed_json))
    = inl (SubscriptKeyError "status") /\
  to_lifecycle_execution (<["failure_details" := JStr "oops"]> failed_json)
    = inl SubscriptTypeError.
Proof.
  destruct (to_lifecycle_execution_first_error
              (delete "status" (delete "outputs" failed_json)))
    as (_ & _ & _ & Hkeys).
  destruct (to_lifecycle_execution_first_error
              (<["failure_details" := JStr "oops"]> failed_json))
    as (Htype & _).
  split.
  - apply (Hkeys "status"); [| reflexivity].
    right. right. eexists. split; [reflexivity |]. by split; eexists.
  - apply (Htype (JStr "oops")); [reflexivity | discriminate |].
    intros o. discriminate.
Defined.
